(** * monit: Darwin resource gathering ([src/process/sysdep_DARWIN.c])

    A shallow embedding of the Mac OS X backend of monit's process and
    system sampler, and the properties of its specification checked against
    it.  Kernel calls (sysctl, Mach host/task/thread queries) are modelled
    by the replies they give; the file-static variables of the C file are a
    record threaded through the functions. *)

From Stdlib Require Import ZArith List Bool Lia Ascii String QArith.
Import ListNotations.

Local Open Scope Z_scope.

(** ** Machine integers *)

Module MachInt.

(** Value of [z] stored in an unsigned [w]-bit object. *)
Definition wrap_unsigned (w z : Z) : Z := z mod 2 ^ w.

(** Value of [z] stored in a signed two's complement [w]-bit object. *)
Definition wrap_signed (w z : Z) : Z := (z + 2 ^ (w - 1)) mod 2 ^ w - 2 ^ (w - 1).

Definition to_uint : Z -> Z := wrap_unsigned 32.
Definition to_int : Z -> Z := wrap_signed 32.
Definition to_long : Z -> Z := wrap_signed 64.
Definition to_schar : Z -> Z := wrap_signed 8.

End MachInt.
Import MachInt.

(** ** File-static state

    [hz], [pagesize_kbyte], [total_old], [cpu_user_old], [cpu_syst_old] and
    [isSipEnabled], with the initial values of their C declarations
    (statics without initialiser start at 0). *)

Record statics : Type := mkStatics {
  hz : Z;
  pagesize_kbyte : Z;
  total_old : Z;
  cpu_user_old : Z;
  cpu_syst_old : Z;
  isSipEnabled : bool
}.

Definition statics_init : statics :=
  {| hz := 0; pagesize_kbyte := 0;
     total_old := 0; cpu_user_old := 0; cpu_syst_old := 0;
     isSipEnabled := true |}.

(** The fields of monit's [SystemInfo_T] that this file writes. *)
Record SystemInfo_T : Type := mkSystemInfo {
  cpus : Z;
  mem_kbyte_max : Z;
  total_mem_kbyte : Z;
  swap_kbyte_max : Z;
  total_swap_kbyte : Z;
  total_cpu_user_percent : Z;
  total_cpu_syst_percent : Z;
  total_cpu_wait_percent : Z
}.

(** Mach's [kern_return_t]: [KERN_SUCCESS] or an error code. *)
Inductive kern_return_t : Type :=
| KERN_SUCCESS
| KERN_FAILURE (code : Z).

Definition kern_ok (k : kern_return_t) : bool :=
  match k with KERN_SUCCESS => true | KERN_FAILURE _ => false end.

(** ** System CPU sampler *)

Module Cpu.

(** Indices of [cpu_ticks] in <mach/machine.h>. *)
Definition CPU_STATE_USER : nat := 0.
Definition CPU_STATE_SYSTEM : nat := 1.
Definition CPU_STATE_IDLE : nat := 2.
Definition CPU_STATE_NICE : nat := 3.
Definition CPU_STATE_MAX : nat := 4.

(** "Not computable" value of the percentage fields. *)
Definition NOT_COMPUTABLE : Z := -10.

(** [host_cpu_load_info_data_t]: [cpu_ticks[CPU_STATE_MAX]], each a
    [natural_t] (unsigned 32 bit). *)
Definition host_cpu_load_info := list Z.

Definition tick (cpu_info : host_cpu_load_info) (i : nat) : Z := nth i cpu_info 0.

(** What [host_statistics(.., HOST_CPU_LOAD_INFO, &cpu_info, ..)] leaves
    behind: its return code and the contents of the [cpu_info] buffer. *)
Record host_statistics_reply : Type := mkCpuReply {
  kret : kern_return_t;
  cpu_info : host_cpu_load_info
}.

Definition ticks_ok (ci : host_cpu_load_info) : Prop :=
  List.length ci = CPU_STATE_MAX /\ Forall (fun t => 0 <= t < 2 ^ 32) ci.

(** [for (i = 0; i < CPU_STATE_MAX; i++) total_new += cpu_info.cpu_ticks[i];]
    with [total_new] a [long] starting at 0. *)
Definition sum_ticks (ci : host_cpu_load_info) : Z :=
  fold_left (fun total_new i => to_long (total_new + tick ci i)) (seq 0 CPU_STATE_MAX) 0.

(** Conversion of a truncated [double] to [int]: the value itself when it
    fits; otherwise the conversion is undefined in C and the [cvttsd2si]
    instruction of the x86-64 build stores [INT_MIN]. *)
Definition double_to_int (q : Z) : Z :=
  if (- 2 ^ 31 <=? q) && (q <? 2 ^ 31) then q else - 2 ^ 31.

(** [(int)(1000 * (double)delta / total)].  The operands that reach this
    expression are differences of 32-bit tick counters and of sums of four
    of them: [delta], [1000 * delta] and [total] are then exact doubles
    (below 2^53), and the correctly rounded quotient of two such integers
    lies on the same side of every integer as the exact quotient, so its
    truncation is the integer quotient truncated toward zero. *)
Definition per_mille (delta total : Z) : Z := double_to_int (Z.quot (1000 * delta) total).

Definition used_system_cpu_sysdep (g : statics) (r : host_statistics_reply) (si : SystemInfo_T)
  : bool * statics * SystemInfo_T :=
  match kret r with
  | KERN_SUCCESS =>
      let ci := cpu_info r in
      let total_new := sum_ticks ci in
      let total := to_long (total_new - total_old g) in
      let user :=
        if 0 <? total
        then per_mille (to_long (tick ci CPU_STATE_USER - cpu_user_old g)) total
        else NOT_COMPUTABLE in
      let syst :=
        if 0 <? total
        then per_mille (to_long (tick ci CPU_STATE_SYSTEM - cpu_syst_old g)) total
        else NOT_COMPUTABLE in
      let si' :=
        {| cpus := cpus si; mem_kbyte_max := mem_kbyte_max si;
           total_mem_kbyte := total_mem_kbyte si;
           swap_kbyte_max := swap_kbyte_max si;
           total_swap_kbyte := total_swap_kbyte si;
           total_cpu_user_percent := user;
           total_cpu_syst_percent := syst;
           total_cpu_wait_percent := 0 |} in
      let g' :=
        {| hz := hz g; pagesize_kbyte := pagesize_kbyte g;
           total_old := total_new;
           cpu_user_old := tick ci CPU_STATE_USER;
           cpu_syst_old := tick ci CPU_STATE_SYSTEM;
           isSipEnabled := isSipEnabled g |} in
      (true, g', si')
  | KERN_FAILURE _ => (false, g, si)
  end.

End Cpu.

(** ** System memory sampler *)

Module Mem.

(** The two [natural_t] page counters of [vm_statistics_data_t] read here. *)
Record vm_statistics : Type := mkVm {
  wire_count : Z;
  active_count : Z
}.

(** [struct xsw_usage]: swap sizes in bytes ([u_int64_t]). *)
Record xsw_usage : Type := mkSwap {
  xsu_total : Z;
  xsu_used : Z
}.

(** Replies of the two kernel queries; [None] is the failing return
    ([kret != KERN_SUCCESS], [sysctl == -1]). *)
Record replies : Type := mkReplies {
  host_vm_info : option vm_statistics;
  vm_swapusage : option xsw_usage
}.

(** [(wire_count + active_count) * pagesize_kbyte]: [natural_t] operands
    and an [int] converted to [unsigned], so the product is taken modulo
    [2^32] before it is widened to the [unsigned long] field. *)
Definition used_kbyte (p : vm_statistics) (pagesize : Z) : Z :=
  to_uint (to_uint (wire_count p + active_count p) * to_uint pagesize).

(** [(double)x] for a non-negative integer [x]: the nearest integer with
    53 significant bits, ties to the even one (IEEE 754 binary64). *)
Definition round_to_double (x : Z) : Z :=
  if x <? 2 ^ 53 then x
  else
    let e := Z.log2 x - 52 in
    let q := x / 2 ^ e in
    let r := x mod 2 ^ e in
    let half := 2 ^ (e - 1) in
    if r <? half then q * 2 ^ e
    else if half <? r then (q + 1) * 2 ^ e
    else if Z.even q then q * 2 ^ e
    else (q + 1) * 2 ^ e.

(** [(unsigned long)(double)(x) / 1024.] stored in an [unsigned long]: the
    [u_int64_t] is rounded to a [double] and converted back (modulo 2^64
    for the one double, 2^64, that does not fit); the division by [1024.]
    of that integer is exact in [double] and the store truncates it. *)
Definition bytes_to_kbyte (x : Z) : Z := wrap_unsigned 64 (round_to_double x) / 1024.

Definition set_total_mem (si : SystemInfo_T) (v : Z) : SystemInfo_T :=
  {| cpus := cpus si; mem_kbyte_max := mem_kbyte_max si;
     total_mem_kbyte := v;
     swap_kbyte_max := swap_kbyte_max si;
     total_swap_kbyte := total_swap_kbyte si;
     total_cpu_user_percent := total_cpu_user_percent si;
     total_cpu_syst_percent := total_cpu_syst_percent si;
     total_cpu_wait_percent := total_cpu_wait_percent si |}.

Definition set_swap_max (si : SystemInfo_T) (v : Z) : SystemInfo_T :=
  {| cpus := cpus si; mem_kbyte_max := mem_kbyte_max si;
     total_mem_kbyte := total_mem_kbyte si;
     swap_kbyte_max := v;
     total_swap_kbyte := total_swap_kbyte si;
     total_cpu_user_percent := total_cpu_user_percent si;
     total_cpu_syst_percent := total_cpu_syst_percent si;
     total_cpu_wait_percent := total_cpu_wait_percent si |}.

Definition set_swap_used (si : SystemInfo_T) (v : Z) : SystemInfo_T :=
  {| cpus := cpus si; mem_kbyte_max := mem_kbyte_max si;
     total_mem_kbyte := total_mem_kbyte si;
     swap_kbyte_max := swap_kbyte_max si;
     total_swap_kbyte := v;
     total_cpu_user_percent := total_cpu_user_percent si;
     total_cpu_syst_percent := total_cpu_syst_percent si;
     total_cpu_wait_percent := total_cpu_wait_percent si |}.

Definition used_system_memory_sysdep (g : statics) (r : replies) (si : SystemInfo_T)
  : bool * SystemInfo_T :=
  match host_vm_info r with
  | None => (false, si)
  | Some page_info =>
      let si1 := set_total_mem si (used_kbyte page_info (pagesize_kbyte g)) in
      match vm_swapusage r with
      | None => (false, set_swap_max si1 0)
      | Some swap =>
          let si2 := set_swap_max si1 (bytes_to_kbyte (xsu_total swap)) in
          (true, set_swap_used si2 (bytes_to_kbyte (xsu_used swap)))
      end
  end.

End Mem.

(** ** Restriction probe and initialisation *)

Module Sip.

(** Replies of the Mach calls of [_isSipEnabled].  The status of
    [processor_set_default] is overwritten before it is read and has no
    field.  [task_pids] is what [pid_for_task] stores for each task of the
    array returned by [processor_set_tasks], in array order. *)
Record replies : Type := mkReplies {
  host_processor_set_priv : kern_return_t;
  processor_set_tasks : kern_return_t;
  task_pids : list Z
}.

(** The loop over [tasks]: [if (pid == 1) isSipEnabled = false;]. *)
Definition scan_tasks (pids : list Z) (flag : bool) : bool :=
  fold_left (fun f pid => if pid =? 1 then false else f) pids flag.

Definition set_isSipEnabled (g : statics) (b : bool) : statics :=
  {| hz := hz g; pagesize_kbyte := pagesize_kbyte g;
     total_old := total_old g; cpu_user_old := cpu_user_old g;
     cpu_syst_old := cpu_syst_old g; isSipEnabled := b |}.

Definition _isSipEnabled (g : statics) (r : replies) : bool * statics :=
  let g0 := set_isSipEnabled g true in
  if negb (kern_ok (host_processor_set_priv r)) then (isSipEnabled g0, g0)
  else if negb (kern_ok (processor_set_tasks r)) then (isSipEnabled g0, g0)
  else
    let g1 := set_isSipEnabled g0 (scan_tasks (task_pids r) (isSipEnabled g0)) in
    (isSipEnabled g1, g1).

(** Replies of the four [sysctl] queries of [init_process_info_sysdep]
    ([None]: the call returned -1) and of the probe. *)
Record init_replies : Type := mkInitReplies {
  kern_clockrate : option Z;
  hw_ncpu : option Z;
  hw_memsize : option Z;
  hw_pagesize : option Z;
  sip : replies
}.

Definition set_hz (g : statics) (v : Z) : statics :=
  {| hz := v; pagesize_kbyte := pagesize_kbyte g;
     total_old := total_old g; cpu_user_old := cpu_user_old g;
     cpu_syst_old := cpu_syst_old g; isSipEnabled := isSipEnabled g |}.

Definition set_pagesize_kbyte (g : statics) (v : Z) : statics :=
  {| hz := hz g; pagesize_kbyte := v;
     total_old := total_old g; cpu_user_old := cpu_user_old g;
     cpu_syst_old := cpu_syst_old g; isSipEnabled := isSipEnabled g |}.

Definition set_cpus (si : SystemInfo_T) (v : Z) : SystemInfo_T :=
  {| cpus := v; mem_kbyte_max := mem_kbyte_max si;
     total_mem_kbyte := total_mem_kbyte si;
     swap_kbyte_max := swap_kbyte_max si;
     total_swap_kbyte := total_swap_kbyte si;
     total_cpu_user_percent := total_cpu_user_percent si;
     total_cpu_syst_percent := total_cpu_syst_percent si;
     total_cpu_wait_percent := total_cpu_wait_percent si |}.

Definition set_mem_kbyte_max (si : SystemInfo_T) (v : Z) : SystemInfo_T :=
  {| cpus := cpus si; mem_kbyte_max := v;
     total_mem_kbyte := total_mem_kbyte si;
     swap_kbyte_max := swap_kbyte_max si;
     total_swap_kbyte := total_swap_kbyte si;
     total_cpu_user_percent := total_cpu_user_percent si;
     total_cpu_syst_percent := total_cpu_syst_percent si;
     total_cpu_wait_percent := total_cpu_wait_percent si |}.

(** [systeminfo] is the global [SystemInfo_T] of the daemon. *)
Definition init_process_info_sysdep (g : statics) (systeminfo : SystemInfo_T) (r : init_replies)
  : bool * statics * SystemInfo_T :=
  match kern_clockrate r with
  | None => (false, g, systeminfo)
  | Some clock_hz =>
      let g1 := set_hz g clock_hz in
      match hw_ncpu r with
      | None => (false, g1, systeminfo)
      | Some ncpu =>
          let si1 := set_cpus systeminfo ncpu in
          match hw_memsize r with
          | None => (false, g1, si1)
          | Some memsize =>
              let si2 := set_mem_kbyte_max si1 (memsize / 1024) in
              match hw_pagesize r with
              | None => (false, g1, si2)
              | Some pagesize =>
                  let g2 := set_pagesize_kbyte g1 (to_int (Z.quot pagesize 1024)) in
                  let '(enabled, g3) := _isSipEnabled g2 (sip r) in
                  (true, set_isSipEnabled g3 enabled, si2)
              end
          end
      end
  end.

End Sip.

(** ** Outcome of code that reads raw memory *)

(** [Fault]: a read outside the allocated buffer (undefined in C).
    [OutOfFuel]: the loop bound of the model was too small. *)
Inductive result (A : Type) : Type :=
| Ok (a : A)
| Fault
| OutOfFuel.

Arguments Ok {A} a.
Arguments Fault {A}.
Arguments OutOfFuel {A}.

Definition bind {A B : Type} (m : result A) (k : A -> result B) : result B :=
  match m with
  | Ok a => k a
  | Fault => Fault
  | OutOfFuel => OutOfFuel
  end.

Notation "x <- m ;; k" := (bind m (fun x => k))
  (at level 61, m at next level, right associativity).

Notation "' pat <- m ;; k" := (bind m (fun x => match x with pat => k end))
  (at level 61, pat pattern, m at next level, right associativity).

(** ** Decoding the [KERN_PROCARGS2] buffer *)

Module ProcArgs.

Definition NUL : ascii := Ascii.zero.

Definition is_nul (c : ascii) : bool := Ascii.eqb c NUL.

(** [*p] for [p = args + i]. *)
Definition read (args : list ascii) (i : nat) : result ascii :=
  match nth_error args i with
  | Some c => Ok c
  | None => Fault
  end.

(** The C string that starts at the head of [mem]: its characters up to,
    and without, the first NUL. *)
Fixpoint strz (mem : list ascii) : result (list ascii) :=
  match mem with
  | [] => Fault
  | c :: mem' => if is_nul c then Ok [] else s <- strz mem' ;; Ok (c :: s)
  end.

(** The string at [args + i], as [strlen] and ["%s"] see it. *)
Definition c_str (args : list ascii) (i : nat) : result (list ascii) := strz (skipn i args).

(** [char] is signed on Darwin: [int argc = *args] sign-extends one byte. *)
Definition char_to_int (c : ascii) : Z := to_schar (Z.of_nat (nat_of_ascii c)).

(** C's [isspace] in the "C" locale. *)
Definition isspace (c : ascii) : bool :=
  let n := nat_of_ascii c in
  ((9 <=? n) && (n <=? 13))%nat || (n =? 32)%nat.

Fixpoint ltrim (s : list ascii) : list ascii :=
  match s with
  | c :: s' => if isspace c then ltrim s' else s
  | [] => []
  end.

(** Modelled from the spec: [StringBuffer_trim] of libmonit is not among
    the sources; "Trailing/leading whitespace in the assembled string is
    trimmed." *)
Definition StringBuffer_trim (s : list ascii) : list ascii :=
  rev (ltrim (rev (ltrim s))).

(** Modelled from the spec: [StringBuffer_append] of libmonit is not among
    the sources; it appends the [printf]-formatted text, here the formats
    ["%s "] and ["%s"] applied to one string. *)
Definition StringBuffer_append (buf : list ascii) (with_space : bool) (s : list ascii)
  : list ascii :=
  buf ++ s ++ (if with_space then [" "%char] else []).

(** The [while (argc && p < args + args_size)] loop.  Every iteration
    moves [p] forward, so [args_size] iterations and one more test are
    enough; [fuel] counts them. *)
Fixpoint args_loop (fuel : nat) (args : list ascii) (args_size : nat)
         (argc : Z) (p : nat) (cmdline : list ascii) : result (list ascii) :=
  if (argc =? 0) || negb (p <? args_size)%nat then Ok cmdline
  else
    match fuel with
    | O => OutOfFuel
    | S fuel' =>
        c <- read args p ;;
        if is_nul c then args_loop fuel' args args_size argc (S p) cmdline
        else
          s <- c_str args p ;;
          let cmdline' := StringBuffer_append cmdline (negb (argc =? 0)) s in
          args_loop fuel' args args_size (to_int (argc - 1)) (p + List.length s) cmdline'
    end.

(** The body of [if (sysctl(mib, 3, args, &args_size, NULL, 0) != -1)]:
    the value left in [pt[i].cmdline], [None] when it stays [NULL]. *)
Definition decode (args : list ascii) (args_size : nat) : result (option (list ascii)) :=
  c0 <- read args 0 ;;
  let argc := char_to_int c0 in
  exename <- c_str args 4 ;;
  let p := (4 + List.length exename)%nat in
  cmdline <- args_loop args_size args args_size argc p [] ;;
  Ok (if (List.length cmdline =? 0)%nat then None else Some (StringBuffer_trim cmdline)).

(** [sysctl] copying [data] out to a buffer whose capacity the caller
    gave as [size]: the first [size] bytes of the buffer are overwritten
    by as much of [data] as fits, the rest of the buffer keeps its
    contents; the call fails (ENOMEM) when [data] does not fit. *)
Definition copyout (args : list ascii) (size : nat) (data : list ascii)
  : bool * list ascii * nat :=
  let written := firstn size data in
  let n := List.length written in
  ((List.length data <=? size)%nat, written ++ skipn n args, n).

End ProcArgs.

(** ** Building the process tree *)

Module Tree.

Import ProcArgs.

(** The fields of monit's [ProcessTree_T] that this file writes.
    [cmdline] is a [char *]: [None] is the [NULL] pointer.  [time] is the
    [double] of [get_float_time], taken as the rational it denotes. *)
Record ProcessTree_T : Type := mkProcessTree {
  pid : Z;
  ppid : Z;
  uid : Z;
  euid : Z;
  gid : Z;
  starttime : Z;
  cmdline : option (list ascii);
  zombie : bool;
  time : Q;
  mem_kbyte : Z;
  cputime : Z;
  cpu_percent : Z
}.

(** An entry of the array returned by [CALLOC]. *)
Definition pt_zero : ProcessTree_T :=
  {| pid := 0; ppid := 0; uid := 0; euid := 0; gid := 0; starttime := 0;
     cmdline := None; zombie := false; time := 0%Q;
     mem_kbyte := 0; cputime := 0; cpu_percent := 0 |}.

(** [struct kinfo_proc], the fields read here. *)
Record kinfo_proc : Type := mkKinfo {
  p_pid : Z;
  e_ppid : Z;
  p_ruid : Z;
  cr_uid : Z;
  p_rgid : Z;
  p_starttime_tv_sec : Z;
  p_comm : list ascii;
  p_stat : Z
}.

(** <sys/proc.h> *)
Definition SZOMB : Z := 5.

(** Mach's [time_value_t]: two [integer_t] (32 bit signed). *)
Record time_value_t : Type := mkTime {
  seconds : Z;
  microseconds : Z
}.

Record task_basic_info : Type := mkTaskInfo {
  resident_size : Z;
  user_time : time_value_t;
  system_time : time_value_t
}.

Record thread_basic_info : Type := mkThreadInfo {
  th_user_time : time_value_t;
  th_system_time : time_value_t;
  flags : Z
}.

(** <mach/thread_info.h> *)
Definition TH_FLAGS_IDLE : Z := 2.

(** [(long)((u.seconds + s.seconds) * 10 + (u.microseconds + s.microseconds) / 100000)],
    computed in [int]. *)
Definition time_units (u s : time_value_t) : Z :=
  to_long (to_int (to_int (to_int (seconds u + seconds s) * 10)
                   + Z.quot (to_int (microseconds u + microseconds s)) 100000)).

(** Replies to one round of task queries for a process: [task_for_pid],
    [task_info], [task_threads] and, per thread of the table,
    [thread_info] ([None]: the call did not return [KERN_SUCCESS]). *)
Record task_replies : Type := mkTaskReplies {
  task_for_pid : kern_return_t;
  task_info : option task_basic_info;
  task_threads : option (list (option thread_basic_info))
}.

Definition set_usage (pt : ProcessTree_T) (mem cpu pct : Z) : ProcessTree_T :=
  {| pid := pid pt; ppid := ppid pt; uid := uid pt; euid := euid pt;
     gid := gid pt; starttime := starttime pt; cmdline := cmdline pt;
     zombie := zombie pt; time := time pt;
     mem_kbyte := mem; cputime := cpu; cpu_percent := pct |}.

(** Body of the loop over [threadtable]. *)
Definition thread_step (pt : ProcessTree_T) (t : option thread_basic_info) : ProcessTree_T :=
  match t with
  | Some threadinfo =>
      if Z.land (flags threadinfo) TH_FLAGS_IDLE =? 0
      then set_usage pt (mem_kbyte pt)
             (to_long (cputime pt
                       + time_units (th_user_time threadinfo) (th_system_time threadinfo)))
             0
      else pt
  | None => pt
  end.

(** The block [if (task_for_pid(mytask, pt[i].pid, &task) == KERN_SUCCESS) { ... }],
    which the source has twice.  Port and memory releases leave the
    record unchanged and are not modelled. *)
Definition enrich (r : task_replies) (pt : ProcessTree_T) : ProcessTree_T :=
  if kern_ok (task_for_pid r) then
    let pt1 :=
      match task_info r with
      | Some taskinfo =>
          set_usage pt (resident_size taskinfo / 1024)
            (time_units (user_time taskinfo) (system_time taskinfo)) 0
      | None => pt
      end in
    match task_threads r with
    | Some threadtable => fold_left thread_step threadtable pt1
    | None => pt1
    end
  else pt.

(** What the kernel answers for one entry of the process table. *)
Record proc_env : Type := mkProcEnv {
  kinfo : kinfo_proc;
  procargs2 : option (list ascii);
  float_time : Q;
  pass1 : task_replies;
  pass2 : task_replies
}.

Definition is_empty_cmdline (c : option (list ascii)) : bool :=
  match c with
  | None => true
  | Some [] => true
  | Some (_ :: _) => false
  end.

Definition set_cmdline (pt : ProcessTree_T) (c : option (list ascii)) : ProcessTree_T :=
  {| pid := pid pt; ppid := ppid pt; uid := uid pt; euid := euid pt;
     gid := gid pt; starttime := starttime pt; cmdline := c;
     zombie := zombie pt; time := time pt;
     mem_kbyte := mem_kbyte pt; cputime := cputime pt; cpu_percent := cpu_percent pt |}.

(** Modelled from the spec: [Str_dup] of libmonit is not among the
    sources; it returns a copy of its argument. *)
Definition Str_dup (s : list ascii) : list ascii := s.

(** Lines 235-240: the identity fields of the zeroed entry [pt[i]]. *)
Definition identity_fields (k : kinfo_proc) : ProcessTree_T :=
  {| pid := p_pid k; ppid := e_ppid k; uid := p_ruid k; euid := cr_uid k;
     gid := p_rgid k; starttime := p_starttime_tv_sec k;
     cmdline := cmdline pt_zero; zombie := zombie pt_zero; time := time pt_zero;
     mem_kbyte := mem_kbyte pt_zero; cputime := cputime pt_zero;
     cpu_percent := cpu_percent pt_zero |}.

(** Lines 242-271: the [KERN_PROCARGS2] query into the shared [args]
    buffer and, when it succeeds, the decoding.  [size] is the saved
    [KERN_ARGMAX]. *)
Definition read_cmdline (size : nat) (args : list ascii) (e : proc_env) (pt : ProcessTree_T)
  : result (ProcessTree_T * list ascii) :=
  match procargs2 e with
  | Some data =>
      let '(ok, args', args_size) := copyout args size data in
      if ok then
        c <- decode args' args_size ;;
        Ok (match c with Some _ => set_cmdline pt c | None => pt end, args')
      else Ok (pt, args')
  | None => Ok (pt, args)
  end.

(** Lines 272-275: [if (! pt[i].cmdline || ! *pt[i].cmdline)]. *)
Definition name_fallback (k : kinfo_proc) (pt : ProcessTree_T) : ProcessTree_T :=
  if is_empty_cmdline (cmdline pt) then set_cmdline pt (Some (Str_dup (p_comm k)))
  else pt.

(** Lines 277-279: zombie flag and sampling time. *)
Definition stamp (e : proc_env) (pt : ProcessTree_T) : ProcessTree_T :=
  {| pid := pid pt; ppid := ppid pt; uid := uid pt; euid := euid pt;
     gid := gid pt; starttime := starttime pt; cmdline := cmdline pt;
     zombie := if p_stat (kinfo e) =? SZOMB then true else zombie pt;
     time := float_time e;
     mem_kbyte := mem_kbyte pt; cputime := cputime pt;
     cpu_percent := cpu_percent pt |}.

(** Lines 286-347: the block guarded by [! isSipEnabled], then the same
    block again without the guard. *)
Definition enrich_passes (sip_enabled : bool) (e : proc_env) (pt : ProcessTree_T)
  : ProcessTree_T :=
  let pt' := if negb sip_enabled then enrich (pass1 e) pt else pt in
  enrich (pass2 e) pt'.

(** One iteration of [for (i = 0; i < treesize; i++)]: from the zeroed
    entry [pt[i]] and the shared [args] buffer to the filled entry and the
    buffer as the iteration leaves it. *)
Definition process_entry (sip_enabled : bool) (size : nat) (args : list ascii) (e : proc_env)
  : result (ProcessTree_T * list ascii) :=
  '(pt1, args1) <- read_cmdline size args e (identity_fields (kinfo e)) ;;
  Ok (enrich_passes sip_enabled e (stamp e (name_fallback (kinfo e) pt1)), args1).

(** The whole loop, threading the [args] buffer through the entries. *)
Fixpoint fill_tree (sip_enabled : bool) (size : nat) (args : list ascii) (es : list proc_env)
  : result (list ProcessTree_T) :=
  match es with
  | [] => Ok []
  | e :: es' =>
      '(pt, args') <- process_entry sip_enabled size args e ;;
      pts <- fill_tree sip_enabled size args' es' ;;
      Ok (pt :: pts)
  end.

(** Replies of the three [sysctl] queries made before the loop: the size
    probe of the process table ([false]: it returned a negative value),
    the table itself and [KERN_ARGMAX]. *)
Record snapshot_env : Type := mkSnapshotEnv {
  kern_proc_size_ok : bool;
  kern_proc_all : option (list proc_env);
  kern_argmax : option nat
}.

(** [initprocesstree_sysdep]: the returned [int] and what is stored in
    [*reference] ([None]: nothing is stored). *)
Definition initprocesstree_sysdep (g : statics) (env : snapshot_env)
  : result (Z * option (list ProcessTree_T)) :=
  if negb (kern_proc_size_ok env) then Ok (0, None)
  else
    match kern_proc_all env with
    | None => Ok (0, None)
    | Some pinfo =>
        let treesize := List.length pinfo in
        match kern_argmax env with
        | None => Ok (0, None)
        | Some args_size =>
            let args := repeat NUL (args_size + 1) in
            pt <- fill_tree (isSipEnabled g) args_size args pinfo ;;
            Ok (to_int (Z.of_nat treesize), Some pt)
        end
    end.

End Tree.

(** ** Well-formed kernel data and sample inputs *)

Definition si_zero : SystemInfo_T := mkSystemInfo 0 0 0 0 0 0 0 0.

(** The statics after an initialisation by a non-root daemon on a host
    with a 100 Hz clock and 4 KiB pages, before the first sample. *)
Definition statics_booted : statics := mkStatics 100 4 0 0 0 true.

(** The accumulators hold what an earlier successful sample, or the
    initialiser, stored in them. *)
Definition accumulators_ok (g : statics) : Prop :=
  0 <= total_old g < 2 ^ 34 /\
  0 <= cpu_user_old g < 2 ^ 32 /\
  0 <= cpu_syst_old g < 2 ^ 32.

(** Total time of a [time_value_t] in microseconds. *)
Definition usec (t : Tree.time_value_t) : Z :=
  Tree.seconds t * 1000000 + Tree.microseconds t.

(** A [time_value_t] as the kernel reports it: normalised, and small
    enough (about three years of CPU time) for the [int] arithmetic of
    the source. *)
Definition time_ok (t : Tree.time_value_t) : Prop :=
  0 <= Tree.seconds t < 100000000 /\ 0 <= Tree.microseconds t < 1000000.

Definition task_times_ok (ti : Tree.task_basic_info) : Prop :=
  time_ok (Tree.user_time ti) /\ time_ok (Tree.system_time ti).

Definition thread_times_ok (t : option Tree.thread_basic_info) : Prop :=
  match t with
  | Some th => time_ok (Tree.th_user_time th) /\ time_ok (Tree.th_system_time th)
  | None => True
  end.

(** User plus system time in whole tenths of a second. *)
Definition tenths (u s : Tree.time_value_t) : Z := (usec u + usec s) / 100000.

(** What one entry of the thread table adds: the tenths of a thread whose
    [thread_info] succeeded and whose idle flag is clear. *)
Definition thread_tenths (t : option Tree.thread_basic_info) : Z :=
  match t with
  | Some th =>
      if Z.land (Tree.flags th) Tree.TH_FLAGS_IDLE =? 0
      then tenths (Tree.th_user_time th) (Tree.th_system_time th)
      else 0
  | None => 0
  end.

Definition threads_tenths (threads : list (option Tree.thread_basic_info)) : Z :=
  fold_right Z.add 0 (map thread_tenths threads).

(** The CPU time of the spec's words: the task's user+system time plus
    that of its non-idle threads, in hundredths of a second. *)
Definition spec_cputime_centiseconds
           (ti : Tree.task_basic_info) (threads : list (option Tree.thread_basic_info)) : Z :=
  (usec (Tree.user_time ti) + usec (Tree.system_time ti)
   + fold_right Z.add 0
       (map (fun t =>
               match t with
               | Some th =>
                   if Z.land (Tree.flags th) Tree.TH_FLAGS_IDLE =? 0
                   then usec (Tree.th_user_time th) + usec (Tree.th_system_time th)
                   else 0
               | None => 0
               end) threads)) / 10000.

Definition set_pass1 (e : Tree.proc_env) (r : Tree.task_replies) : Tree.proc_env :=
  {| Tree.kinfo := Tree.kinfo e; Tree.procargs2 := Tree.procargs2 e;
     Tree.float_time := Tree.float_time e;
     Tree.pass1 := r; Tree.pass2 := Tree.pass2 e |}.

Definition bytes (s : string) : list ascii := list_ascii_of_string s.

(** A task that ran one second in user mode and half a second in system
    mode and holds 2 MiB, with one busy and one idle thread. *)
Definition task_1s5 : Tree.task_basic_info :=
  Tree.mkTaskInfo 2097152 (Tree.mkTime 1 0) (Tree.mkTime 0 500000).

Definition replies_1s5 : Tree.task_replies :=
  Tree.mkTaskReplies KERN_SUCCESS (Some task_1s5)
    (Some [Some (Tree.mkThreadInfo (Tree.mkTime 0 250000) (Tree.mkTime 0 50000) 0);
           Some (Tree.mkThreadInfo (Tree.mkTime 9 0) (Tree.mkTime 9 0) 2);
           None]).

Definition replies_denied : Tree.task_replies :=
  Tree.mkTaskReplies (KERN_FAILURE 5) None None.

(** The daemon's own process, which [task_for_pid] always opens. *)
Definition own_process : Tree.proc_env :=
  Tree.mkProcEnv (Tree.mkKinfo 321 1 501 501 20 1700000000 (bytes "monit") 2)
    None 0%Q replies_1s5 replies_1s5.

(** A snapshot of one process, taken while the restriction flag is set. *)
Definition own_snapshot : Tree.snapshot_env :=
  Tree.mkSnapshotEnv true (Some [own_process]) (Some 64%nat).

(** The [KERN_PROCARGS2] reply of the spec's example: count 2, executable
    path, padding, two arguments. *)
Definition ls_blob : list ascii :=
  [ascii_of_nat 2; ProcArgs.NUL; ProcArgs.NUL; ProcArgs.NUL]
    ++ bytes "/bin/ls" ++ [ProcArgs.NUL; ProcArgs.NUL; ProcArgs.NUL]
    ++ bytes "-l" ++ [ProcArgs.NUL]
    ++ bytes "--color" ++ [ProcArgs.NUL].

(** The same reply cut one byte short, so that the declared bytes do not
    end in NUL. *)
Definition ls_blob_cut : list ascii := firstn 24 ls_blob.

Definition ls_process : Tree.proc_env :=
  Tree.mkProcEnv (Tree.mkKinfo 400 321 501 501 20 1700000100 (bytes "ls") 2)
    (Some ls_blob) 0%Q replies_denied replies_denied.

(** ** Layout of a [KERN_PROCARGS2] reply

    After the count and the executable path the reply is a sequence of
    strings, each preceded by the NUL that ends what comes before it and by
    any number of padding NULs.  A field is the number of its padding NULs
    and its characters. *)

Definition no_nul (s : list ascii) : Prop := Forall (fun c => ProcArgs.is_nul c = false) s.

Definition field_ok (f : nat * list ascii) : Prop := snd f <> [] /\ no_nul (snd f).

Fixpoint layout (fs : list (nat * list ascii)) : list ascii :=
  match fs with
  | [] => [ProcArgs.NUL]
  | (m, a) :: fs' => repeat ProcArgs.NUL (S m) ++ a ++ layout fs'
  end.

(** The four bytes of the count, the executable path, the strings. *)
Definition procargs_blob (c0 b1 b2 b3 : ascii) (exe : list ascii)
           (fs : list (nat * list ascii)) : list ascii :=
  [c0; b1; b2; b3] ++ exe ++ layout fs.

(** The strings as the loop appends them, each followed by a space. *)
Definition render (fs : list (nat * list ascii)) : list ascii :=
  List.concat (map (fun f => snd f ++ [" "%char]) fs).

(** How many of [len] strings a loop started with count [argc] appends: a
    negative count never reaches 0. *)
Definition fields_taken (argc : Z) (len : nat) : nat :=
  if argc <? 0 then len else Nat.min (Z.to_nat argc) len.

(** ** Views of records and kernel entries *)

(** The identity fields of a record, and the same fields of a kernel
    entry. *)
Definition record_identity (pt : Tree.ProcessTree_T) : Z * Z * Z * Z * Z * Z :=
  (Tree.pid pt, Tree.ppid pt, Tree.uid pt, Tree.euid pt, Tree.gid pt, Tree.starttime pt).

Definition kernel_identity (e : Tree.proc_env) : Z * Z * Z * Z * Z * Z :=
  let k := Tree.kinfo e in
  (Tree.p_pid k, Tree.e_ppid k, Tree.p_ruid k, Tree.cr_uid k, Tree.p_rgid k,
   Tree.p_starttime_tv_sec k).

Definition kernel_zombie (e : Tree.proc_env) : bool :=
  Tree.p_stat (Tree.kinfo e) =? Tree.SZOMB.

(** ** CPU time in microseconds, and well-formed task replies *)

Definition thread_usec (t : option Tree.thread_basic_info) : Z :=
  match t with
  | Some th =>
      if Z.land (Tree.flags th) Tree.TH_FLAGS_IDLE =? 0
      then usec (Tree.th_user_time th) + usec (Tree.th_system_time th)
      else 0
  | None => 0
  end.

(** User plus system time of a task and of its busy threads. *)
Definition cpu_usec (ti : Tree.task_basic_info)
           (threads : list (option Tree.thread_basic_info)) : Z :=
  usec (Tree.user_time ti) + usec (Tree.system_time ti)
  + fold_right Z.add 0 (map thread_usec threads).

(** Replies whose sizes and times are what the kernel can report. *)
Definition replies_ok (r : Tree.task_replies) : Prop :=
  match Tree.task_info r with
  | Some ti => 0 <= Tree.resident_size ti /\ task_times_ok ti
  | None => True
  end
  /\ match Tree.task_threads r with
     | Some threads =>
         Forall thread_times_ok threads /\ Z.of_nat (List.length threads) < 2 ^ 31
     | None => True
     end.

(** ** Runs of the CPU sampler *)

(** The sampler called once per reply, threading statics and output. *)
Definition cpu_step (st : statics * SystemInfo_T) (r : Cpu.host_statistics_reply)
  : statics * SystemInfo_T :=
  let '(_, g', si') := Cpu.used_system_cpu_sysdep (fst st) r (snd st) in (g', si').

Definition cpu_run (st : statics * SystemInfo_T) (rs : list Cpu.host_statistics_reply)
  : statics * SystemInfo_T :=
  fold_left cpu_step rs st.

(** The tick counters of the last successful reply, if any. *)
Definition last_reading (init : option Cpu.host_cpu_load_info)
           (rs : list Cpu.host_statistics_reply) : option Cpu.host_cpu_load_info :=
  fold_left (fun acc r => if kern_ok (Cpu.kret r) then Some (Cpu.cpu_info r) else acc) rs init.

Definition accumulators_hold (g : statics) (ci : Cpu.host_cpu_load_info) : Prop :=
  total_old g = Cpu.sum_ticks ci /\
  cpu_user_old g = Cpu.tick ci Cpu.CPU_STATE_USER /\
  cpu_syst_old g = Cpu.tick ci Cpu.CPU_STATE_SYSTEM.

(** * Properties *)

(** ** Machine integers *)

Lemma to_uint_small z : 0 <= z < 2 ^ 32 -> to_uint z = z.
Proof. intros H. unfold to_uint, wrap_unsigned. now apply Z.mod_small. Qed.

Lemma to_int_small z : - 2 ^ 31 <= z < 2 ^ 31 -> to_int z = z.
Proof.
  intros H. unfold to_int, wrap_signed.
  change (2 ^ (32 - 1)) with 2147483648 in *.
  change (2 ^ 32) with 4294967296 in *.
  change (2 ^ 31) with 2147483648 in *.
  rewrite Z.mod_small; lia.
Qed.

Lemma to_long_small z : - 2 ^ 63 <= z < 2 ^ 63 -> to_long z = z.
Proof.
  intros H. unfold to_long, wrap_signed.
  change (2 ^ (64 - 1)) with 9223372036854775808 in *.
  change (2 ^ 64) with 18446744073709551616 in *.
  change (2 ^ 63) with 9223372036854775808 in *.
  rewrite Z.mod_small; lia.
Qed.

(** ** The CPU sampler *)

Section CpuSampler.

Import Cpu.

Lemma sum_ticks_plain ci :
  ticks_ok ci ->
  sum_ticks ci = tick ci 0 + tick ci 1 + tick ci 2 + tick ci 3
  /\ 0 <= sum_ticks ci < 2 ^ 34.
Proof.
  intros [Hlen Hall].
  destruct ci as [|a [|b [|c [|d [|? ?]]]]]; try discriminate Hlen.
  inversion_clear Hall as [|? ? Ha Hall1].
  inversion_clear Hall1 as [|? ? Hb Hall2].
  inversion_clear Hall2 as [|? ? Hc Hall3].
  inversion_clear Hall3 as [|? ? Hd _].
  change (2 ^ 32) with 4294967296 in *.
  change (2 ^ 34) with 17179869184.
  unfold sum_ticks, tick; simpl.
  assert (R : forall z, 0 <= z < 17179869184 -> to_long z = z).
  { intros z Hz. apply to_long_small.
    change (2 ^ 63) with 9223372036854775808. lia. }
  rewrite (R a) by lia.
  rewrite (R (a + b)) by lia.
  rewrite (R (a + b + c)) by lia.
  rewrite (R (a + b + c + d)) by lia.
  lia.
Qed.

Lemma tick_range ci i : ticks_ok ci -> 0 <= tick ci i < 2 ^ 32.
Proof.
  intros [_ Hall]. unfold tick.
  destruct (nth_in_or_default i ci 0) as [Hin | Hd].
  - rewrite Forall_forall in Hall. now apply Hall.
  - rewrite Hd. change (2 ^ 32) with 4294967296. lia.
Qed.

Lemma ticks_ok_accumulators g ci si :
  ticks_ok ci ->
  accumulators_ok (snd (fst (used_system_cpu_sysdep g (mkCpuReply KERN_SUCCESS ci) si))).
Proof.
  intros H. unfold used_system_cpu_sysdep, accumulators_ok; simpl.
  destruct (sum_ticks_plain ci H) as [_ Hs].
  pose proof (tick_range ci CPU_STATE_USER H).
  pose proof (tick_range ci CPU_STATE_SYSTEM H).
  auto.
Qed.

End CpuSampler.

(** C2, as stated, fails: the very first successful sample of a host whose
    tick counters read 250/250/500/0 reports 250 per mille for user and
    system, not the sentinel. *)
Lemma first_cpu_sample_is_computed :
  ~ (forall g ci si,
        total_old g = 0 ->
        let si' := snd (Cpu.used_system_cpu_sysdep g (Cpu.mkCpuReply KERN_SUCCESS ci) si) in
        total_cpu_user_percent si' = Cpu.NOT_COMPUTABLE /\
        total_cpu_syst_percent si' = Cpu.NOT_COMPUTABLE).
Proof.
  intros H.
  destruct (H statics_booted [250; 250; 500; 0] si_zero eq_refl) as [Hu _].
  vm_compute in Hu. discriminate Hu.
Qed.

Lemma double_to_int_small q : - 2 ^ 31 <= q < 2 ^ 31 -> Cpu.double_to_int q = q.
Proof.
  intros [Hlo Hhi]. unfold Cpu.double_to_int.
  apply Z.leb_le in Hlo. apply Z.ltb_lt in Hhi. now rewrite Hlo, Hhi.
Qed.

(** A quotient that does not fit an [int] is not stored as such. *)
Lemma per_mille_outside_int_range : Cpu.per_mille 4294967295 1 = - 2 ^ 31.
Proof. vm_compute. reflexivity. Qed.

(** C2 (amended): on a successful sample both percentages are the sentinel
    -10 when the total tick delta is not positive; when it is positive,
    each percentage is the per-mille quotient 1000 * stateDelta /
    totalDelta truncated toward zero, provided that quotient fits an
    [int].  On the first call the previous total is 0, so the delta is the
    whole tick sum since boot: the sentinel is reported only if that sum is
    0, and a positive sum yields values between 0 and 1000, never the
    sentinel. *)
Theorem cpu_percent_sentinel_without_interval :
  forall g ci si,
    Cpu.ticks_ok ci ->
    accumulators_ok g ->
    let si' := snd (Cpu.used_system_cpu_sysdep g (Cpu.mkCpuReply KERN_SUCCESS ci) si) in
    let total :=
      Cpu.tick ci 0 + Cpu.tick ci 1 + Cpu.tick ci 2 + Cpu.tick ci 3 - total_old g in
    let user_quot :=
      Z.quot (1000 * (Cpu.tick ci Cpu.CPU_STATE_USER - cpu_user_old g)) total in
    let syst_quot :=
      Z.quot (1000 * (Cpu.tick ci Cpu.CPU_STATE_SYSTEM - cpu_syst_old g)) total in
    (total <= 0 ->
     total_cpu_user_percent si' = Cpu.NOT_COMPUTABLE /\
     total_cpu_syst_percent si' = Cpu.NOT_COMPUTABLE) /\
    (0 < total ->
     (- 2 ^ 31 <= user_quot < 2 ^ 31 -> total_cpu_user_percent si' = user_quot) /\
     (- 2 ^ 31 <= syst_quot < 2 ^ 31 -> total_cpu_syst_percent si' = syst_quot)) /\
    (total_old g = 0 -> cpu_user_old g = 0 -> cpu_syst_old g = 0 -> 0 < total ->
     0 <= total_cpu_user_percent si' <= 1000 /\
     0 <= total_cpu_syst_percent si' <= 1000).
Proof.
  intros g ci si Hci (Ht & Hu & Hs) si' total user_quot syst_quot.
  destruct (sum_ticks_plain ci Hci) as [Hsum Hsr].
  pose proof (tick_range ci Cpu.CPU_STATE_USER Hci) as Hru.
  pose proof (tick_range ci Cpu.CPU_STATE_SYSTEM Hci) as Hrs.
  change (2 ^ 32) with 4294967296 in *.
  change (2 ^ 34) with 17179869184 in *.
  assert (R : forall z, - 17179869184 < z < 17179869184 -> to_long z = z).
  { intros z Hz. apply to_long_small.
    change (2 ^ 63) with 9223372036854775808. lia. }
  assert (Etot : to_long (Cpu.sum_ticks ci - total_old g) = total).
  { rewrite R by lia. unfold total. lia. }
  assert (Eu : to_long (Cpu.tick ci Cpu.CPU_STATE_USER - cpu_user_old g)
               = Cpu.tick ci Cpu.CPU_STATE_USER - cpu_user_old g) by (apply R; lia).
  assert (Es : to_long (Cpu.tick ci Cpu.CPU_STATE_SYSTEM - cpu_syst_old g)
               = Cpu.tick ci Cpu.CPU_STATE_SYSTEM - cpu_syst_old g) by (apply R; lia).
  subst si'. unfold Cpu.used_system_cpu_sysdep; cbn [Cpu.kret Cpu.cpu_info snd
    total_cpu_user_percent total_cpu_syst_percent].
  rewrite Etot, Eu, Es. unfold Cpu.per_mille. fold user_quot syst_quot.
  split; [| split].
  - intros Hle. destruct (Z.ltb_spec 0 total); [lia |]. split; reflexivity.
  - intros Hpos. destruct (Z.ltb_spec 0 total); [| lia].
    split; intros Hq; now apply double_to_int_small.
  - intros H0 Hu0 Hs0 Hpos. destruct (Z.ltb_spec 0 total); [| lia].
    pose proof (tick_range ci 2 Hci). pose proof (tick_range ci 3 Hci).
    change (2 ^ 32) with 4294967296 in *.
    assert (Ht0 : total = Cpu.tick ci 0 + Cpu.tick ci 1 + Cpu.tick ci 2 + Cpu.tick ci 3)
      by (unfold total; lia).
    pose proof (tick_range ci 1 Hci) as Hod.
    change (2 ^ 32) with 4294967296 in Hod.
    assert (Qu : 0 <= user_quot <= 1000).
    { subst user_quot. clear syst_quot.
      unfold Cpu.CPU_STATE_USER, Cpu.CPU_STATE_SYSTEM in *. rewrite Hu0, Z.sub_0_r. split.
      - apply Z.quot_pos; lia.
      - apply Z.quot_le_upper_bound; [assumption | rewrite Ht0; clear - Hru Hrs H1 H2 Hod; lia]. }
    assert (Qs : 0 <= syst_quot <= 1000).
    { subst syst_quot. clearbody user_quot.
      unfold Cpu.CPU_STATE_USER, Cpu.CPU_STATE_SYSTEM in *. rewrite Hs0, Z.sub_0_r. split.
      - apply Z.quot_pos; lia.
      - apply Z.quot_le_upper_bound; [assumption | rewrite Ht0; clear - Hru Hrs H1 H2 Hod; lia]. }
    rewrite !double_to_int_small by (change (2 ^ 31) with 2147483648; lia).
    split; assumption.
Qed.

Lemma cpu_percent_sentinel_without_interval_witness :
  let si' := snd (Cpu.used_system_cpu_sysdep statics_booted
                    (Cpu.mkCpuReply KERN_SUCCESS [250; 250; 500; 0]) si_zero) in
  0 <= total_cpu_user_percent si' <= 1000 /\
  0 <= total_cpu_syst_percent si' <= 1000.
Proof.
  assert (H1 : Cpu.ticks_ok [250; 250; 500; 0]).
  { split; [reflexivity | repeat constructor; vm_compute; discriminate]. }
  assert (H2 : accumulators_ok statics_booted).
  { repeat split; vm_compute; (discriminate || reflexivity). }
  destruct (cpu_percent_sentinel_without_interval statics_booted [250; 250; 500; 0] si_zero
              H1 H2) as (_ & _ & H3).
  apply H3; reflexivity.
Defined.

(** C4, as stated, fails: when [host_statistics] does not succeed the
    accumulators keep their old values, whatever the reply buffer holds. *)
Lemma cpu_failure_keeps_accumulators :
  ~ (forall g r si,
        let g' := snd (fst (Cpu.used_system_cpu_sysdep g r si)) in
        total_old g' = Cpu.sum_ticks (Cpu.cpu_info r) /\
        cpu_user_old g' = Cpu.tick (Cpu.cpu_info r) Cpu.CPU_STATE_USER /\
        cpu_syst_old g' = Cpu.tick (Cpu.cpu_info r) Cpu.CPU_STATE_SYSTEM).
Proof.
  intros H.
  destruct (H statics_booted (Cpu.mkCpuReply (KERN_FAILURE 5) [1; 2; 3; 4]) si_zero) as [Ht _].
  vm_compute in Ht. discriminate Ht.
Qed.

(** C4 (amended): after every successful invocation, sentinel result or
    not, the three accumulators hold the newly read raw tick values, and
    the next successful call computes its deltas from them; a failing
    invocation reports failure and leaves accumulators and output as they
    were. *)
Theorem cpu_accumulators_follow_successful_samples :
  forall g r si,
    let '(ok, g', si') := Cpu.used_system_cpu_sysdep g r si in
    match Cpu.kret r with
    | KERN_SUCCESS =>
        ok = true /\
        total_old g' = Cpu.sum_ticks (Cpu.cpu_info r) /\
        cpu_user_old g' = Cpu.tick (Cpu.cpu_info r) Cpu.CPU_STATE_USER /\
        cpu_syst_old g' = Cpu.tick (Cpu.cpu_info r) Cpu.CPU_STATE_SYSTEM /\
        forall ci2 si2,
          let si'' := snd (Cpu.used_system_cpu_sysdep g' (Cpu.mkCpuReply KERN_SUCCESS ci2) si2) in
          let total := to_long (Cpu.sum_ticks ci2 - Cpu.sum_ticks (Cpu.cpu_info r)) in
          total_cpu_user_percent si''
          = (if 0 <? total
             then Cpu.per_mille
                    (to_long (Cpu.tick ci2 Cpu.CPU_STATE_USER
                              - Cpu.tick (Cpu.cpu_info r) Cpu.CPU_STATE_USER)) total
             else Cpu.NOT_COMPUTABLE) /\
          total_cpu_syst_percent si''
          = (if 0 <? total
             then Cpu.per_mille
                    (to_long (Cpu.tick ci2 Cpu.CPU_STATE_SYSTEM
                              - Cpu.tick (Cpu.cpu_info r) Cpu.CPU_STATE_SYSTEM)) total
             else Cpu.NOT_COMPUTABLE)
    | KERN_FAILURE _ => ok = false /\ g' = g /\ si' = si
    end.
Proof.
  intros g [k ci] si. unfold Cpu.used_system_cpu_sysdep; cbn [Cpu.kret Cpu.cpu_info].
  destruct k as [|code]; cbn.
  - repeat split; reflexivity.
  - repeat split; reflexivity.
Qed.

(** ** The memory sampler *)

(** C5, as stated, fails: after a swap-query failure the swap-used field
    still holds the value of the previous cycle. *)
Lemma swap_failure_keeps_swap_used :
  ~ (forall g page_info si,
        let '(ok, si') := Mem.used_system_memory_sysdep g
                            (Mem.mkReplies (Some page_info) None) si in
        ok = false /\
        total_mem_kbyte si' = Mem.used_kbyte page_info (pagesize_kbyte g) /\
        swap_kbyte_max si' = 0 /\
        total_swap_kbyte si' = 0).
Proof.
  intros H.
  specialize (H statics_booted (Mem.mkVm 10 20) (mkSystemInfo 4 1000 0 512 7 0 0 0)).
  cbn in H. destruct H as (_ & _ & _ & H). discriminate H.
Qed.

(** C5 (amended): when the memory-statistics query succeeds and the
    swap-usage query fails, the sampler returns failure, the memory field
    holds the value just computed from the page counts, the swap total
    ([swap_kbyte_max]) is zeroed, and every other field, the swap-used
    field ([total_swap_kbyte]) included, is left as it was. *)
Theorem swap_failure_zeroes_swap_max_only :
  forall g page_info si,
    let '(ok, si') := Mem.used_system_memory_sysdep g
                        (Mem.mkReplies (Some page_info) None) si in
    ok = false /\
    total_mem_kbyte si' = Mem.used_kbyte page_info (pagesize_kbyte g) /\
    swap_kbyte_max si' = 0 /\
    total_swap_kbyte si' = total_swap_kbyte si /\
    cpus si' = cpus si /\
    mem_kbyte_max si' = mem_kbyte_max si /\
    total_cpu_user_percent si' = total_cpu_user_percent si /\
    total_cpu_syst_percent si' = total_cpu_syst_percent si /\
    total_cpu_wait_percent si' = total_cpu_wait_percent si.
Proof.
  intros g page_info si. cbn. repeat split; reflexivity.
Qed.

(** ** The restriction probe *)

Lemma scan_tasks_spec pids flag :
  Sip.scan_tasks pids flag = flag && negb (existsb (Z.eqb 1) pids).
Proof.
  unfold Sip.scan_tasks. revert flag.
  induction pids as [|pid pids IH]; intros flag; cbn [fold_left existsb].
  - now rewrite andb_true_r.
  - rewrite IH. rewrite (Z.eqb_sym pid 1).
    destruct (1 =? pid); cbn [orb negb andb]; [now destruct flag | reflexivity].
Qed.

Lemma existsb_pid1_In pids : existsb (Z.eqb 1) pids = true <-> In 1 pids.
Proof.
  rewrite existsb_exists. split.
  - intros (x & Hin & Hx). apply Z.eqb_eq in Hx. now subst x.
  - intros Hin. exists 1. split; [assumption | apply Z.eqb_refl].
Qed.

(** C6: the probe answers "restricted" whenever [host_processor_set_priv]
    or [processor_set_tasks] fails; when both succeed it answers
    "unrestricted" exactly when a task with pid 1 is in the enumerated
    list.  The answer is also the value of the static flag, and an
    initialisation whose four [sysctl] queries succeed stores it there. *)
Theorem sip_probe_restricted_unless_pid1_listed :
  forall g r,
    let '(enabled, g') := Sip._isSipEnabled g r in
    isSipEnabled g' = enabled /\
    (kern_ok (Sip.host_processor_set_priv r) = false \/
     kern_ok (Sip.processor_set_tasks r) = false -> enabled = true) /\
    (kern_ok (Sip.host_processor_set_priv r) = true ->
     kern_ok (Sip.processor_set_tasks r) = true ->
     (enabled = false <-> In 1 (Sip.task_pids r))) /\
    forall systeminfo clock ncpu memsize pagesize,
      let '(ok, g_init, _) :=
        Sip.init_process_info_sysdep g systeminfo
          (Sip.mkInitReplies (Some clock) (Some ncpu) (Some memsize) (Some pagesize) r) in
      ok = true /\ isSipEnabled g_init = enabled.
Proof.
  intros g r. unfold Sip.init_process_info_sysdep; cbn -[Sip.scan_tasks].
  unfold Sip._isSipEnabled.
  destruct (kern_ok (Sip.host_processor_set_priv r)) eqn:Hp;
    destruct (kern_ok (Sip.processor_set_tasks r)) eqn:Ht; cbn -[Sip.scan_tasks].
  - rewrite scan_tasks_spec; cbn.
    split; [reflexivity |].
    split; [intros [H | H]; discriminate H |].
    split; [| intros; split; reflexivity].
    intros _ _. rewrite negb_false_iff. apply existsb_pid1_In.
  - split; [reflexivity |].
    split; [reflexivity |].
    split; [intros _ H; discriminate H | intros; split; reflexivity].
  - split; [reflexivity |].
    split; [reflexivity |].
    split; [intros H; discriminate H | intros; split; reflexivity].
  - split; [reflexivity |].
    split; [reflexivity |].
    split; [intros H; discriminate H | intros; split; reflexivity].
Qed.

Lemma sip_probe_restricted_unless_pid1_listed_witness :
  fst (Sip._isSipEnabled statics_init
         (Sip.mkReplies KERN_SUCCESS KERN_SUCCESS [0; 1; 77])) = false
  /\ fst (Sip._isSipEnabled statics_init
            (Sip.mkReplies (KERN_FAILURE 4) KERN_SUCCESS [0; 1; 77])) = true.
Proof.
  split.
  - pose proof (sip_probe_restricted_unless_pid1_listed statics_init
                  (Sip.mkReplies KERN_SUCCESS KERN_SUCCESS [0; 1; 77])) as H.
    destruct (Sip._isSipEnabled statics_init
                (Sip.mkReplies KERN_SUCCESS KERN_SUCCESS [0; 1; 77])) as [enabled g'].
    destruct H as (_ & _ & H & _).
    apply (H eq_refl eq_refl). simpl. tauto.
  - pose proof (sip_probe_restricted_unless_pid1_listed statics_init
                  (Sip.mkReplies (KERN_FAILURE 4) KERN_SUCCESS [0; 1; 77])) as H.
    destruct (Sip._isSipEnabled statics_init
                (Sip.mkReplies (KERN_FAILURE 4) KERN_SUCCESS [0; 1; 77])) as [enabled g'].
    destruct H as (_ & H & _).
    apply H. left. reflexivity.
Defined.

(** ** Resource enrichment *)

Section Enrichment.

Import Tree.

Lemma time_units_tenths u s :
  time_ok u -> time_ok s ->
  time_units u s = tenths u s /\ 0 <= time_units u s <= 2000000019.
Proof.
  intros [Hu1 Hu2] [Hs1 Hs2]. unfold time_units, tenths, usec.
  assert (R : forall z, 0 <= z < 2147483648 -> to_int z = z).
  { intros z Hz. apply to_int_small. change (2 ^ 31) with 2147483648. lia. }
  assert (L : forall z, 0 <= z < 2147483648 -> to_long z = z).
  { intros z Hz. apply to_long_small.
    change (2 ^ 63) with 9223372036854775808. lia. }
  rewrite (R (seconds u + seconds s)) by lia.
  rewrite (R (microseconds u + microseconds s)) by lia.
  rewrite (R ((seconds u + seconds s) * 10)) by lia.
  rewrite Z.quot_div_nonneg by lia.
  assert (Hq : 0 <= (microseconds u + microseconds s) / 100000 < 20).
  { split; [apply Z.div_pos; lia | apply Z.div_lt_upper_bound; lia]. }
  rewrite R by lia. rewrite L by lia.
  replace (seconds u * 1000000 + microseconds u + (seconds s * 1000000 + microseconds s))
    with ((seconds u + seconds s) * 10 * 100000 + (microseconds u + microseconds s)) by lia.
  rewrite Z.div_add_l by lia.
  split; lia.
Qed.

Lemma thread_tenths_range t :
  thread_times_ok t -> 0 <= thread_tenths t <= 2000000019.
Proof.
  destruct t as [th|]; simpl; [| lia].
  intros [Hu Hs].
  destruct (Z.land (flags th) TH_FLAGS_IDLE =? 0); [| lia].
  destruct (time_units_tenths _ _ Hu Hs) as [E Hr]. now rewrite <- E.
Qed.

Lemma threads_tenths_range threads :
  Forall thread_times_ok threads ->
  0 <= threads_tenths threads <= 2000000019 * Z.of_nat (List.length threads).
Proof.
  unfold threads_tenths.
  induction 1 as [|t threads Ht _ IH]; cbn [map fold_right List.length]; [lia |].
  pose proof (thread_tenths_range t Ht). lia.
Qed.

(** The thread loop adds the tenths of every non-idle thread and touches
    nothing but [cputime] and [cpu_percent]. *)
Lemma thread_loop_sum threads :
  Forall thread_times_ok threads ->
  forall pt,
    0 <= cputime pt ->
    cputime pt + 2000000019 * Z.of_nat (List.length threads) < 2 ^ 63 ->
    cputime (fold_left thread_step threads pt) = cputime pt + threads_tenths threads
    /\ mem_kbyte (fold_left thread_step threads pt) = mem_kbyte pt.
Proof.
  change (2 ^ 63) with 9223372036854775808.
  induction 1 as [|t threads Ht Hall IH]; intros pt Hpos Hbound.
  - unfold threads_tenths; simpl. lia.
  - cbn [fold_left]. cbn [List.length] in Hbound.
    pose proof (thread_tenths_range t Ht) as Hr.
    pose proof (threads_tenths_range threads Hall) as Hrs.
    assert (E : cputime (thread_step pt t) = cputime pt + thread_tenths t
                /\ mem_kbyte (thread_step pt t) = mem_kbyte pt).
    { destruct t as [th|]; cbn [thread_step thread_tenths] in *; [| lia].
      destruct Ht as [Hu Hs].
      destruct (Z.land (flags th) TH_FLAGS_IDLE =? 0); [| lia].
      destruct (time_units_tenths _ _ Hu Hs) as [Et Htr].
      cbn [cputime mem_kbyte set_usage]. rewrite Et in *.
      rewrite to_long_small; [lia |].
      change (2 ^ 63) with 9223372036854775808. lia. }
    destruct E as [Ec Em].
    destruct (IH (thread_step pt t)) as [IHc IHm]; [lia | lia |].
    rewrite IHc, IHm, Ec, Em.
    unfold threads_tenths; cbn [map fold_right]. lia.
Qed.

(** [enrich] writes the three usage fields and no other. *)
Lemma set_usage_eta pt : set_usage pt (mem_kbyte pt) (cputime pt) (cpu_percent pt) = pt.
Proof. now destruct pt. Qed.

Lemma thread_loop_usage_only threads :
  forall pt m c p,
  exists c' p', fold_left thread_step threads (set_usage pt m c p) = set_usage pt m c' p'.
Proof.
  induction threads as [|t threads IH]; intros pt m c p; cbn [fold_left].
  - now exists c, p.
  - destruct t as [th|]; cbn [thread_step]; [| apply IH].
    destruct (Z.land (flags th) TH_FLAGS_IDLE =? 0); [| apply IH].
    apply (IH pt).
Qed.

Lemma enrich_usage_only r pt :
  exists m c p, enrich r pt = set_usage pt m c p.
Proof.
  unfold enrich.
  destruct (kern_ok (task_for_pid r)).
  - destruct (task_info r) as [ti|]; destruct (task_threads r) as [threads|].
    + destruct (thread_loop_usage_only threads pt (resident_size ti / 1024)
                  (time_units (user_time ti) (system_time ti)) 0) as (c' & p' & E).
      rewrite E. eauto.
    + eauto.
    + destruct (thread_loop_usage_only threads pt (mem_kbyte pt) (cputime pt)
                  (cpu_percent pt)) as (c' & p' & E).
      rewrite set_usage_eta in E. rewrite E. eauto.
    + exists (mem_kbyte pt), (cputime pt), (cpu_percent pt).
      now rewrite set_usage_eta.
  - exists (mem_kbyte pt), (cputime pt), (cpu_percent pt).
    now rewrite set_usage_eta.
Qed.

(** When [task_for_pid] and [task_info] succeed, what [enrich] leaves
    does not depend on the usage fields it found. *)
Lemma enrich_overwrites r pt m c p :
  kern_ok (task_for_pid r) = true ->
  task_info r <> None ->
  enrich r (set_usage pt m c p) = enrich r pt.
Proof.
  intros Hk Hi. unfold enrich. rewrite Hk.
  destruct (task_info r) as [ti|]; [| contradiction].
  reflexivity.
Qed.

Lemma enrich_cmdline r pt : cmdline (enrich r pt) = cmdline pt.
Proof.
  destruct (enrich_usage_only r pt) as (m & c & p & E). now rewrite E.
Qed.

End Enrichment.

Section Snapshot.

Import Tree.

Lemma thread_step_usage pt m c p t :
  exists c' p',
    thread_step (set_usage pt m c p) t = set_usage pt m c' p'
    /\ thread_step (set_usage pt_zero m c p) t = set_usage pt_zero m c' p'.
Proof.
  destruct t as [th|]; cbn [thread_step]; [| now exists c, p].
  destruct (Z.land (flags th) TH_FLAGS_IDLE =? 0); [| now exists c, p].
  do 2 eexists. split; reflexivity.
Qed.

Lemma thread_loop_usage_fields threads :
  forall pt m c p,
    cputime (fold_left thread_step threads (set_usage pt m c p))
    = cputime (fold_left thread_step threads (set_usage pt_zero m c p))
    /\ mem_kbyte (fold_left thread_step threads (set_usage pt m c p))
       = mem_kbyte (fold_left thread_step threads (set_usage pt_zero m c p)).
Proof.
  induction threads as [|t threads IH]; intros pt m c p; cbn [fold_left].
  - split; reflexivity.
  - destruct (thread_step_usage pt m c p t) as (c' & p' & E1 & E2).
    rewrite E1, E2. apply IH.
Qed.

(** With a second pass whose task access and task query succeed, the two
    blocks together do what the second does alone. *)
Lemma enrich_passes_single sip_enabled e pt :
  kern_ok (task_for_pid (pass2 e)) = true ->
  task_info (pass2 e) <> None ->
  enrich_passes sip_enabled e pt = enrich (pass2 e) pt.
Proof.
  intros Hk Hi. unfold enrich_passes.
  destruct (negb sip_enabled); [| reflexivity].
  destruct (enrich_usage_only (pass1 e) pt) as (m & c & p & E).
  rewrite E. now apply enrich_overwrites.
Qed.

Lemma process_entry_inv sip_enabled size args e pt args' :
  process_entry sip_enabled size args e = Ok (pt, args') ->
  exists pt1,
    read_cmdline size args e (identity_fields (kinfo e)) = Ok (pt1, args')
    /\ pt = enrich_passes sip_enabled e (stamp e (name_fallback (kinfo e) pt1)).
Proof.
  unfold process_entry.
  destruct (read_cmdline size args e (identity_fields (kinfo e))) as [[pt1 args1]| |];
    cbn [bind]; try discriminate.
  intros H. injection H as <- <-. now exists pt1.
Qed.

(** Under the restriction flag a process whose task cannot be opened
    keeps the zeroes of its freshly allocated entry. *)
Lemma restricted_and_denied_is_zero size args e pt args' :
  process_entry true size args e = Ok (pt, args') ->
  kern_ok (task_for_pid (pass2 e)) = false ->
  mem_kbyte pt = 0 /\ cputime pt = 0.
Proof.
  intros H Hk. apply process_entry_inv in H. destruct H as (pt1 & Hr & ->).
  unfold enrich_passes, enrich; cbn [negb]. rewrite Hk.
  unfold read_cmdline in Hr.
  assert (Hz : mem_kbyte pt1 = 0 /\ cputime pt1 = 0).
  { destruct (procargs2 e) as [data|].
    - destruct (ProcArgs.copyout args size data) as [[ok a] n].
      destruct ok.
      + destruct (ProcArgs.decode a n) as [c| |]; cbn [bind] in Hr; try discriminate.
        injection Hr as <- _. destruct c; split; reflexivity.
      + injection Hr as <- _. split; reflexivity.
    - injection Hr as <- _. split; reflexivity. }
  unfold stamp, name_fallback; cbn [mem_kbyte cputime].
  destruct (is_empty_cmdline (cmdline pt1)); cbn [set_cmdline mem_kbyte cputime]; exact Hz.
Qed.

End Snapshot.

(** C1 fails on the code: the copy of the enrichment block at lines 318-347
    is not guarded by [isSipEnabled], so with the flag set the daemon's own
    process, whose task can always be opened, is reported with 2048 KiB and
    a CPU time of 18. *)
Theorem restricted_snapshot_still_enriches :
  isSipEnabled statics_booted = true /\
  exists pt,
    Tree.initprocesstree_sysdep statics_booted own_snapshot = Ok (1, Some [pt]) /\
    Tree.mem_kbyte pt = 2048 /\
    Tree.cputime pt = 18.
Proof.
  split; [reflexivity |].
  eexists. split; [vm_compute; reflexivity |].
  split; reflexivity.
Qed.

(** C3, as stated, fails: for a task that used 1.5 s of CPU and has no
    threads the field holds 15, not the 150 hundredths of a second. *)
Lemma cputime_is_not_centiseconds :
  ~ (forall pt ti threads,
        task_times_ok ti ->
        Forall thread_times_ok threads ->
        Tree.cputime (Tree.enrich (Tree.mkTaskReplies KERN_SUCCESS (Some ti) (Some threads)) pt)
        = spec_cputime_centiseconds ti threads).
Proof.
  intros H.
  assert (Hok : task_times_ok task_1s5).
  { repeat split; vm_compute; (discriminate || reflexivity). }
  specialize (H Tree.pt_zero task_1s5 [] Hok (Forall_nil _)).
  vm_compute in H. discriminate H.
Qed.

(** The bound of [time_ok] is needed: the source adds and scales the
    seconds in [int], and a user time of 214748365 s wraps to a negative
    value. *)
Lemma time_units_wraps_past_int_range :
  Tree.time_units (Tree.mkTime 214748365 0) (Tree.mkTime 0 0) = - 2147483646.
Proof. vm_compute. reflexivity. Qed.

(** C3 (amended): for every process whose task is opened and whose task
    and thread-table queries succeed in the final enrichment block, and
    whose reported times are normalised (microseconds from 0 to 999999)
    with every user and system time from 0 to below 10^8 seconds, so that
    the [int] arithmetic of the source does not overflow, and whose thread
    table has fewer than 2^32 entries, the CPU-time field is in tenths of a
    second: the whole tenths of the task's own user+system time plus, for
    each thread whose query succeeds and that is not flagged idle, the
    whole tenths of its user+system time.  The memory field is the resident
    size in KiB. *)
Theorem cputime_is_tenths_of_task_and_busy_threads :
  forall sip_enabled size args e pt args' ti threads,
    Tree.process_entry sip_enabled size args e = Ok (pt, args') ->
    Tree.task_for_pid (Tree.pass2 e) = KERN_SUCCESS ->
    Tree.task_info (Tree.pass2 e) = Some ti ->
    Tree.task_threads (Tree.pass2 e) = Some threads ->
    task_times_ok ti ->
    Forall thread_times_ok threads ->
    Z.of_nat (List.length threads) < 2 ^ 32 ->
    Tree.cputime pt
    = tenths (Tree.user_time ti) (Tree.system_time ti) + threads_tenths threads
    /\ Tree.mem_kbyte pt = Tree.resident_size ti / 1024.
Proof.
  intros sip_enabled size args e pt args' ti threads H Hk Hi Ht [Hu Hs] Hall Hlen.
  apply process_entry_inv in H. destruct H as (pt1 & _ & ->).
  rewrite enrich_passes_single by (rewrite ?Hk, ?Hi; (reflexivity || discriminate)).
  unfold Tree.enrich. rewrite Hk, Hi, Ht. cbn [kern_ok].
  destruct (time_units_tenths _ _ Hu Hs) as [Et Hr].
  change (2 ^ 32) with 4294967296 in Hlen.
  match goal with
  | |- context [fold_left Tree.thread_step threads ?p] =>
      destruct (thread_loop_sum threads Hall p) as [Ec Em]
  end.
  - cbn [Tree.cputime Tree.set_usage]. lia.
  - cbn [Tree.cputime Tree.set_usage].
    change (2 ^ 63) with 9223372036854775808. lia.
  - rewrite Ec, Em. cbn [Tree.cputime Tree.mem_kbyte Tree.set_usage].
    rewrite Et. split; reflexivity.
Qed.

Lemma cputime_is_tenths_of_task_and_busy_threads_witness :
  exists pt args',
    Tree.process_entry true 64 (repeat ProcArgs.NUL 65) own_process = Ok (pt, args') /\
    Tree.cputime pt = 18 /\ Tree.mem_kbyte pt = 2048.
Proof.
  do 2 eexists. split; [reflexivity |].
  refine (cputime_is_tenths_of_task_and_busy_threads true 64 (repeat ProcArgs.NUL 65)
            own_process _ _ task_1s5 _ eq_refl eq_refl eq_refl eq_refl _ _ _).
  - repeat split; vm_compute; (discriminate || reflexivity).
  - repeat constructor; vm_compute; (discriminate || reflexivity).
  - vm_compute. reflexivity.
Defined.

(** C10: when the second block's task access and task query succeed, the
    entry produced does not depend on the restriction flag nor on what the
    first block's queries answered, and its memory and CPU-time fields are
    those of the second block run alone on a zeroed entry. *)
Theorem second_pass_hides_first_pass :
  forall sip_enabled size args e ti,
    Tree.task_for_pid (Tree.pass2 e) = KERN_SUCCESS ->
    Tree.task_info (Tree.pass2 e) = Some ti ->
    (forall sip_enabled' replies1,
        Tree.process_entry sip_enabled size args e
        = Tree.process_entry sip_enabled' size args (set_pass1 e replies1))
    /\ (forall pt args',
           Tree.process_entry sip_enabled size args e = Ok (pt, args') ->
           Tree.mem_kbyte pt = Tree.mem_kbyte (Tree.enrich (Tree.pass2 e) Tree.pt_zero) /\
           Tree.cputime pt = Tree.cputime (Tree.enrich (Tree.pass2 e) Tree.pt_zero)).
Proof.
  intros sip_enabled size args e ti Hk Hi.
  assert (Hk' : kern_ok (Tree.task_for_pid (Tree.pass2 e)) = true) by now rewrite Hk.
  assert (Hi' : Tree.task_info (Tree.pass2 e) <> None) by now rewrite Hi.
  split.
  - intros sip_enabled' replies1. unfold Tree.process_entry.
    change (Tree.read_cmdline size args (set_pass1 e replies1)
              (Tree.identity_fields (Tree.kinfo (set_pass1 e replies1))))
      with (Tree.read_cmdline size args e (Tree.identity_fields (Tree.kinfo e))).
    destruct (Tree.read_cmdline size args e (Tree.identity_fields (Tree.kinfo e)))
      as [[pt1 args1]| |]; cbn [bind]; try reflexivity.
    rewrite !enrich_passes_single by assumption.
    reflexivity.
  - intros pt args' H.
    apply process_entry_inv in H. destruct H as (pt1 & _ & ->).
    rewrite enrich_passes_single by assumption.
    unfold Tree.enrich. rewrite Hk, Hi. cbn [kern_ok].
    destruct (Tree.task_threads (Tree.pass2 e)) as [threads|].
    + destruct (thread_loop_usage_fields threads
                  (Tree.stamp e (Tree.name_fallback (Tree.kinfo e) pt1))
                  (Tree.resident_size ti / 1024)
                  (Tree.time_units (Tree.user_time ti) (Tree.system_time ti)) 0) as [Ec Em].
      split; assumption.
    + split; reflexivity.
Qed.

Lemma second_pass_hides_first_pass_witness :
  Tree.process_entry true 64 (repeat ProcArgs.NUL 65) own_process
  = Tree.process_entry false 64 (repeat ProcArgs.NUL 65) (set_pass1 own_process replies_denied).
Proof.
  exact (proj1 (second_pass_hides_first_pass true 64 (repeat ProcArgs.NUL 65) own_process
                  task_1s5 eq_refl eq_refl) false replies_denied).
Defined.

(** ** The argument decoder *)

Section Decoder.

Import ProcArgs.

Lemma is_nul_true c : is_nul c = true <-> c = NUL.
Proof. unfold is_nul. apply Ascii.eqb_eq. Qed.

(** *** Reads that succeed in a buffer succeed alike in a longer one *)

Lemma read_app l1 l2 i c : read l1 i = Ok c -> read (l1 ++ l2) i = Ok c.
Proof.
  unfold read. destruct (nth_error l1 i) as [c'|] eqn:E; [| discriminate].
  intros H. rewrite nth_error_app1 by (apply nth_error_Some; congruence).
  now rewrite E.
Qed.

Lemma strz_app l1 l2 s : strz l1 = Ok s -> strz (l1 ++ l2) = Ok s.
Proof.
  revert s. induction l1 as [|c l1 IH]; intros s; cbn [strz app]; [discriminate |].
  destruct (is_nul c); [trivial |].
  destruct (strz l1) as [s1| |]; cbn [bind]; try discriminate.
  intros H. now rewrite (IH s1 eq_refl).
Qed.

Lemma c_str_app l1 l2 i s : c_str l1 i = Ok s -> c_str (l1 ++ l2) i = Ok s.
Proof.
  unfold c_str. intros H.
  destruct (Nat.le_gt_cases i (List.length l1)) as [Hle | Hgt].
  - rewrite skipn_app.
    replace (i - List.length l1)%nat with 0%nat by lia.
    now apply strz_app.
  - rewrite skipn_all2 in H by lia. discriminate H.
Qed.

Lemma args_loop_app l1 l2 n fuel :
  forall argc p cmd c,
    args_loop fuel l1 n argc p cmd = Ok c ->
    args_loop fuel (l1 ++ l2) n argc p cmd = Ok c.
Proof.
  induction fuel as [|fuel IH]; intros argc p cmd c; cbn [args_loop];
    destruct ((argc =? 0) || negb (p <? n)%nat); trivial.
  destruct (read l1 p) as [ch| |] eqn:Er; cbn [bind]; try discriminate.
  rewrite (read_app _ l2 _ _ Er); cbn [bind].
  destruct (is_nul ch); [apply IH |].
  destruct (c_str l1 p) as [s| |] eqn:Es; cbn [bind]; try discriminate.
  rewrite (c_str_app _ l2 _ _ Es); cbn [bind].
  apply IH.
Qed.

Lemma decode_app l1 l2 n c : decode l1 n = Ok c -> decode (l1 ++ l2) n = Ok c.
Proof.
  unfold decode.
  destruct (read l1 0) as [c0| |] eqn:Er; cbn [bind]; try discriminate.
  rewrite (read_app _ l2 _ _ Er); cbn [bind].
  destruct (c_str l1 4) as [exe| |] eqn:Es; cbn [bind]; try discriminate.
  rewrite (c_str_app _ l2 _ _ Es); cbn [bind].
  destruct (args_loop n l1 n (char_to_int c0) (4 + List.length exe) [])
    as [cmd| |] eqn:El; cbn [bind]; try discriminate.
  now rewrite (args_loop_app _ l2 _ _ _ _ _ _ El).
Qed.

(** *** No read leaves a buffer that ends in NUL *)

Lemma strz_total l : In NUL l -> exists s, strz l = Ok s /\ (List.length s < List.length l)%nat.
Proof.
  induction l as [|c l IH]; intros Hin; [contradiction |].
  cbn [strz]. destruct (is_nul c) eqn:Ec.
  - exists []. split; [reflexivity | simpl; lia].
  - destruct Hin as [Heq | Hin].
    + apply is_nul_true in Heq. congruence.
    + destruct (IH Hin) as (s & Es & Hl). rewrite Es; cbn [bind].
      exists (c :: s). split; [reflexivity | simpl; lia].
Qed.

Lemma c_str_total l p :
  (p <= List.length l)%nat ->
  exists s, c_str (l ++ [NUL]) p = Ok s /\ (p + List.length s <= List.length l)%nat.
Proof.
  intros Hp. unfold c_str. rewrite skipn_app.
  replace (p - List.length l)%nat with 0%nat by lia. cbn [skipn].
  destruct (strz_total (skipn p l ++ [NUL])) as (s & Es & Hl).
  - apply in_or_app. right. now left.
  - exists s. split; [assumption |].
    rewrite length_app, length_skipn in Hl. simpl in Hl. lia.
Qed.

Lemma skipn_nth_error {A} (l : list A) p c :
  nth_error l p = Some c -> exists rest, skipn p l = c :: rest.
Proof.
  revert l. induction p as [|p IH]; intros [|x l]; simpl; try discriminate.
  - intros [= ->]. now exists l.
  - apply IH.
Qed.

Lemma c_str_nonempty args p c s :
  read args p = Ok c -> is_nul c = false -> c_str args p = Ok s ->
  (1 <= List.length s)%nat.
Proof.
  unfold read, c_str. destruct (nth_error args p) as [c'|] eqn:E; [| discriminate].
  intros [= ->] Hc. destruct (skipn_nth_error _ _ _ E) as (rest & ->).
  cbn [strz]. rewrite Hc.
  destruct (strz rest) as [s'| |]; cbn [bind]; try discriminate.
  intros [= <-]. simpl. lia.
Qed.

Lemma args_loop_total l n fuel :
  (n <= List.length l + 1)%nat ->
  forall argc p cmd,
    (p <= List.length l + 1)%nat ->
    (n - p <= fuel)%nat ->
    exists c, args_loop fuel (l ++ [NUL]) n argc p cmd = Ok c.
Proof.
  intros Hn. induction fuel as [|fuel IH]; intros argc p cmd Hp Hf; cbn [args_loop];
    destruct (argc =? 0); cbn [orb]; eauto;
    destruct (Nat.ltb_spec p n) as [Hlt | Hge]; cbn [negb]; eauto; [lia |].
  destruct (read (l ++ [NUL]) p) as [ch| |] eqn:Er; cbn [bind].
  - destruct (is_nul ch) eqn:Ech.
    + apply IH; lia.
    + destruct (c_str_total l p) as (s & Es & Hs); [lia |].
      rewrite Es; cbn [bind].
      pose proof (c_str_nonempty _ _ _ _ Er Ech Es).
      apply IH; lia.
  - unfold read in Er.
    destruct (nth_error (l ++ [NUL]) p) eqn:E; [discriminate |].
    apply nth_error_None in E. rewrite length_app in E. simpl in E. lia.
  - unfold read in Er. destruct (nth_error (l ++ [NUL]) p); discriminate.
Qed.

Lemma decode_total l n :
  (4 <= List.length l)%nat ->
  (n <= List.length l + 1)%nat ->
  exists c, decode (l ++ [NUL]) n = Ok c.
Proof.
  intros Hl Hn. unfold decode.
  destruct (read (l ++ [NUL]) 0) as [c0| |] eqn:Er; cbn [bind].
  - destruct (c_str_total l 4 Hl) as (exe & Es & He). rewrite Es; cbn [bind].
    destruct (args_loop_total l n n Hn (char_to_int c0) (4 + List.length exe) [])
      as (cmd & El); [lia | lia |].
    rewrite El; cbn [bind]. eauto.
  - destruct l; [simpl in Hl; lia | discriminate].
  - destruct l; discriminate.
Qed.

Lemma firstn_S_last {A} (l : list A) m x :
  nth_error l m = Some x -> firstn (S m) l = firstn m l ++ [x].
Proof.
  revert l. induction m as [|m IH]; intros [|y l]; simpl; try discriminate.
  - now intros [= ->].
  - intros H. f_equal. now apply IH.
Qed.

End Decoder.

(** C7, as stated, fails: two buffers with the same 24 declared bytes,
    which do not end in NUL, decode to different strings, because the last
    argument is read on, past the declared length, up to the next NUL of
    the buffer. *)
Lemma decoder_reads_past_declared_length :
  ~ (forall args1 args2 n,
        firstn n args1 = firstn n args2 ->
        ProcArgs.decode args1 n = ProcArgs.decode args2 n).
Proof.
  intros H.
  specialize (H (ls_blob_cut ++ bytes "xyz" ++ [ProcArgs.NUL])
                (ls_blob_cut ++ [ProcArgs.NUL]) 24%nat eq_refl).
  vm_compute in H. discriminate H.
Qed.

(** C7 (amended): the decoder is a total function of the whole argument
    buffer and the declared length.  On a buffer that holds at least five
    bytes and ends in NUL, as the zeroed allocation of [KERN_ARGMAX + 1]
    bytes does, and for a declared length within it, the decoder returns
    and no read leaves the buffer.  When the declared bytes are at least
    five and end in NUL, the result is the same for all buffers that agree
    on the declared bytes: no read passes the declared length. *)
Theorem decoder_total_and_bounded_by_terminator :
  (forall l n,
      (4 <= List.length l)%nat ->
      (n <= List.length l + 1)%nat ->
      exists c, ProcArgs.decode (l ++ [ProcArgs.NUL]) n = Ok c)
  /\ (forall args1 args2 n,
         (5 <= n)%nat ->
         nth_error args1 (n - 1) = Some ProcArgs.NUL ->
         firstn n args1 = firstn n args2 ->
         exists c, ProcArgs.decode args1 n = Ok c /\ ProcArgs.decode args2 n = Ok c).
Proof.
  split; [exact decode_total |].
  intros args1 args2 n Hn Hnul Hfirst.
  assert (Hlen : (n - 1 < List.length args1)%nat)
    by (apply nth_error_Some; congruence).
  assert (Hsplit : firstn n args1 = firstn (n - 1) args1 ++ [ProcArgs.NUL]).
  { replace n with (S (n - 1)) at 1 by lia. now apply firstn_S_last. }
  destruct (decode_total (firstn (n - 1) args1) n) as (c & Ec).
  - rewrite length_firstn. lia.
  - rewrite length_firstn. lia.
  - rewrite <- Hsplit in Ec. exists c. split.
    + rewrite <- (firstn_skipn n args1). now apply decode_app.
    + rewrite <- (firstn_skipn n args2), <- Hfirst. now apply decode_app.
Qed.

Lemma decoder_total_and_bounded_by_terminator_witness :
  (exists c, ProcArgs.decode (ls_blob ++ repeat ProcArgs.NUL 40) 25 = Ok c)
  /\ (exists c, ProcArgs.decode ls_blob 25 = Ok c
                /\ ProcArgs.decode (ls_blob ++ bytes "stale") 25 = Ok c).
Proof.
  split.
  - apply (proj1 decoder_total_and_bounded_by_terminator
             (ls_blob ++ repeat ProcArgs.NUL 39) 25%nat); vm_compute; lia.
  - apply (proj2 decoder_total_and_bounded_by_terminator
             ls_blob (ls_blob ++ bytes "stale") 25%nat);
      [vm_compute; lia | reflexivity | reflexivity].
Defined.

(** C8: the example blob with count 2 decodes to ["-l --color"]: the
    executable path and the padding NULs are skipped, the arguments are
    joined by single spaces and the trailing space is trimmed.  The same
    holds when the blob is what the kernel copies into the zeroed buffer
    of a snapshot. *)
Theorem decode_ls_example :
  List.length ls_blob = 25%nat /\
  ProcArgs.decode ls_blob 25 = Ok (Some (bytes "-l --color")) /\
  exists pt args',
    Tree.process_entry true 64 (repeat ProcArgs.NUL 65) ls_process = Ok (pt, args') /\
    Tree.cmdline pt = Some (bytes "-l --color").
Proof.
  split; [reflexivity |].
  split; [vm_compute; reflexivity |].
  do 2 eexists. split; [vm_compute; reflexivity | reflexivity].
Qed.

(** ** Command line fallback *)

Section CommandLine.

Import Tree.

Lemma enrich_passes_cmdline sip_enabled e pt :
  cmdline (enrich_passes sip_enabled e pt) = cmdline pt.
Proof.
  unfold enrich_passes. rewrite enrich_cmdline.
  destruct (negb sip_enabled); [apply enrich_cmdline | reflexivity].
Qed.

Lemma stamp_cmdline e pt : cmdline (stamp e pt) = cmdline pt.
Proof. reflexivity. Qed.

Lemma name_fallback_cmdline k pt :
  cmdline (name_fallback k pt)
  = if is_empty_cmdline (cmdline pt) then Some (p_comm k) else cmdline pt.
Proof.
  unfold name_fallback. now destruct (is_empty_cmdline (cmdline pt)).
Qed.

(** The copy-out keeps the buffer's size and its final NUL. *)
Lemma copyout_keeps_terminator l size data :
  List.length l = size ->
  exists l',
    snd (fst (ProcArgs.copyout (l ++ [ProcArgs.NUL]) size data)) = l' ++ [ProcArgs.NUL]
    /\ List.length l' = size
    /\ (snd (ProcArgs.copyout (l ++ [ProcArgs.NUL]) size data) <= size)%nat.
Proof.
  intros Hl. unfold ProcArgs.copyout; cbn [fst snd].
  assert (Hw : (List.length (firstn size data) <= size)%nat)
    by (rewrite length_firstn; lia).
  exists (firstn size data ++ skipn (List.length (firstn size data)) l).
  rewrite skipn_app.
  replace (List.length (firstn size data) - List.length l)%nat with 0%nat by lia.
  cbn [skipn]. rewrite <- app_assoc.
  repeat split; [| assumption].
  rewrite length_app, length_skipn. lia.
Qed.

Lemma process_entry_total sip_enabled size l e :
  (4 <= size)%nat ->
  List.length l = size ->
  exists pt l',
    process_entry sip_enabled size (l ++ [ProcArgs.NUL]) e = Ok (pt, l' ++ [ProcArgs.NUL])
    /\ List.length l' = size.
Proof.
  intros Hsize Hl. unfold process_entry, read_cmdline.
  destruct (procargs2 e) as [data|]; [| cbn [bind]; eauto].
  destruct (copyout_keeps_terminator l size data Hl) as (l' & Ea & Hl' & Hn).
  destruct (ProcArgs.copyout (l ++ [ProcArgs.NUL]) size data) as [[ok a] n].
  cbn [fst snd] in Ea, Hn. subst a.
  destruct ok; [| cbn [bind]; eauto].
  destruct (decode_total l' n) as (c & Ec); [lia | lia |].
  rewrite Ec; cbn [bind]. eauto.
Qed.

Lemma fill_tree_total sip_enabled size es :
  (4 <= size)%nat ->
  forall l,
    List.length l = size ->
    exists pts, fill_tree sip_enabled size (l ++ [ProcArgs.NUL]) es = Ok pts
                /\ List.length pts = List.length es.
Proof.
  intros Hsize. induction es as [|e es IH]; intros l Hl; cbn [fill_tree].
  - now exists [].
  - destruct (process_entry_total sip_enabled size l e Hsize Hl) as (pt & l' & E & Hl').
    rewrite E; cbn [bind].
    destruct (IH l' Hl') as (pts & Ep & Hp). rewrite Ep; cbn [bind].
    exists (pt :: pts). split; [reflexivity | simpl; now rewrite Hp].
Qed.

Lemma fill_tree_In sip_enabled size es :
  forall args pts pt,
    fill_tree sip_enabled size args es = Ok pts ->
    In pt pts ->
    exists e args0 args1,
      In e es /\ process_entry sip_enabled size args0 e = Ok (pt, args1).
Proof.
  induction es as [|e es IH]; intros args pts pt; cbn [fill_tree].
  - intros [= <-] [].
  - destruct (process_entry sip_enabled size args e) as [[pt0 args0]| |] eqn:E;
      cbn [bind]; try discriminate.
    destruct (fill_tree sip_enabled size args0 es) as [pts0| |] eqn:Ef;
      cbn [bind]; try discriminate.
    intros [= <-] [<- | Hin].
    + exists e, args, args0. split; [now left | assumption].
    + destruct (IH _ _ _ Ef Hin) as (e' & a0 & a1 & He & Hp).
      exists e', a0, a1. split; [now right | assumption].
Qed.

End CommandLine.

Lemma process_entry_cmdline sip_enabled size args e pt args' :
  Tree.process_entry sip_enabled size args e = Ok (pt, args') ->
  exists c,
    Tree.cmdline pt
    = (if Tree.is_empty_cmdline c then Some (Tree.p_comm (Tree.kinfo e)) else c)
    /\ match Tree.procargs2 e with
       | None => c = None
       | Some data =>
           let '(ok, a, n) := ProcArgs.copyout args size data in
           if ok then ProcArgs.decode a n = Ok c else c = None
       end.
Proof.
  intros H. apply process_entry_inv in H. destruct H as (pt1 & Hr & ->).
  exists (Tree.cmdline pt1).
  rewrite enrich_passes_cmdline, stamp_cmdline, name_fallback_cmdline.
  split; [reflexivity |].
  unfold Tree.read_cmdline in Hr.
  destruct (Tree.procargs2 e) as [data|].
  - destruct (ProcArgs.copyout args size data) as [[ok a] n].
    destruct ok.
    + destruct (ProcArgs.decode a n) as [c| |]; cbn [bind] in Hr; try discriminate.
      injection Hr as <- _. now destruct c.
    + now injection Hr as <- _.
  - now injection Hr as <- _.
Qed.

(** C9: for every entry of a snapshot, when the arguments query fails, or
    decoding leaves no string or an empty one, the command line is the
    short name of the kernel's process table; and with a non-empty short
    name the command line of the record is never empty. *)
Theorem cmdline_falls_back_to_short_name :
  forall sip_enabled size args e pt args',
    Tree.process_entry sip_enabled size args e = Ok (pt, args') ->
    (Tree.procargs2 e = None -> Tree.cmdline pt = Some (Tree.p_comm (Tree.kinfo e)))
    /\ (forall data,
           Tree.procargs2 e = Some data ->
           let '(ok, a, n) := ProcArgs.copyout args size data in
           ok = false \/ ProcArgs.decode a n = Ok None \/ ProcArgs.decode a n = Ok (Some []) ->
           Tree.cmdline pt = Some (Tree.p_comm (Tree.kinfo e)))
    /\ (Tree.p_comm (Tree.kinfo e) <> [] ->
        exists s, Tree.cmdline pt = Some s /\ s <> []).
Proof.
  intros sip_enabled size args e pt args' H.
  destruct (process_entry_cmdline _ _ _ _ _ _ H) as (c & Ec & Hc).
  repeat split.
  - intros Hnone. rewrite Hnone in Hc. subst c. exact Ec.
  - intros data Hdata. rewrite Hdata in Hc.
    destruct (ProcArgs.copyout args size data) as [[ok a] n].
    intros [Hok | [Hd | Hd]].
    + subst ok. subst c. exact Ec.
    + destruct ok; [| subst c; exact Ec].
      rewrite Hd in Hc. injection Hc as <-. exact Ec.
    + destruct ok; [| subst c; exact Ec].
      rewrite Hd in Hc. injection Hc as <-. exact Ec.
  - intros Hname. rewrite Ec.
    destruct c as [[|ch s]|]; cbn [Tree.is_empty_cmdline]; eauto.
    exists (ch :: s). split; [reflexivity | discriminate].
Qed.

Lemma cmdline_falls_back_to_short_name_witness :
  exists pt args',
    Tree.process_entry true 64 (repeat ProcArgs.NUL 65) own_process = Ok (pt, args')
    /\ Tree.cmdline pt = Some (bytes "monit").
Proof.
  do 2 eexists. split; [reflexivity |].
  exact (proj1 (cmdline_falls_back_to_short_name true 64 (repeat ProcArgs.NUL 65)
                  own_process _ _ eq_refl) eq_refl).
Defined.

(** ** Whole snapshots *)

(** With [KERN_ARGMAX] of at least 4 a snapshot never reads outside the
    [args] buffer: it returns one entry per entry of the process table, or
    the empty result of the three fatal paths. *)
Lemma initprocesstree_total g env :
  (forall n, Tree.kern_argmax env = Some n -> (4 <= n)%nat) ->
  exists r,
    Tree.initprocesstree_sysdep g env = Ok r
    /\ match snd r with
       | Some pts =>
           exists pinfo, Tree.kern_proc_all env = Some pinfo
                         /\ List.length pts = List.length pinfo
       | None => fst r = 0
       end.
Proof.
  intros Hmax. unfold Tree.initprocesstree_sysdep.
  destruct (negb (Tree.kern_proc_size_ok env)); [now exists (0, None) |].
  destruct (Tree.kern_proc_all env) as [pinfo|]; [| now exists (0, None)].
  destruct (Tree.kern_argmax env) as [n|]; [| now exists (0, None)].
  specialize (Hmax n eq_refl).
  replace (repeat ProcArgs.NUL (n + 1)) with (repeat ProcArgs.NUL n ++ [ProcArgs.NUL])
    by (now rewrite repeat_app).
  destruct (fill_tree_total (isSipEnabled g) n pinfo Hmax (repeat ProcArgs.NUL n))
    as (pts & E & Hlen); [apply repeat_length |].
  rewrite E; cbn [bind]. eexists. split; [reflexivity |].
  cbn [snd]. now exists pinfo.
Qed.

(** X13: every record of a snapshot whose process table has no empty
    short name carries a non-empty command line. *)
Lemma snapshot_cmdlines_nonempty g env n pts pinfo :
  Tree.initprocesstree_sysdep g env = Ok (n, Some pts) ->
  Tree.kern_proc_all env = Some pinfo ->
  Forall (fun e => Tree.p_comm (Tree.kinfo e) <> []) pinfo ->
  Forall (fun pt => exists s, Tree.cmdline pt = Some s /\ s <> []) pts.
Proof.
  unfold Tree.initprocesstree_sysdep. intros H Hp Hall. rewrite Hp in H.
  destruct (negb (Tree.kern_proc_size_ok env)); [discriminate |].
  destruct (Tree.kern_argmax env) as [size|]; [| discriminate].
  destruct (Tree.fill_tree (isSipEnabled g) size (repeat ProcArgs.NUL (size + 1)) pinfo)
    as [pts0| |] eqn:Ef; cbn [bind] in H; try discriminate.
  injection H as _ <-.
  apply Forall_forall. intros pt Hin.
  destruct (fill_tree_In _ _ _ _ _ _ Ef Hin) as (e & a0 & a1 & He & Hpe).
  destruct (process_entry_cmdline _ _ _ _ _ _ Hpe) as (c & Ec & _).
  rewrite Forall_forall in Hall. specialize (Hall e He).
  rewrite Ec. destruct c as [[|ch s]|]; cbn [Tree.is_empty_cmdline]; eauto.
  exists (ch :: s). split; [reflexivity | discriminate].
Qed.

(** ** The decoder on well-formed replies *)

Section DecoderLayout.

Import ProcArgs.

Lemma layout_head fs : exists r, layout fs = NUL :: r.
Proof. destruct fs as [|[m a] fs]; simpl; eauto. Qed.

Lemma is_nul_NUL : is_nul NUL = true.
Proof. reflexivity. Qed.

Lemma read_at pre c rest : read (pre ++ c :: rest) (List.length pre) = Ok c.
Proof.
  unfold read. rewrite nth_error_app2 by lia. now rewrite Nat.sub_diag.
Qed.

Lemma strz_field a rest : no_nul a -> strz (a ++ NUL :: rest) = Ok a.
Proof.
  induction 1 as [|c a Hc _ IH]; cbn [app strz].
  - now rewrite is_nul_NUL.
  - rewrite Hc, IH. reflexivity.
Qed.

Lemma c_str_at pre a rest :
  no_nul a -> c_str (pre ++ a ++ NUL :: rest) (List.length pre) = Ok a.
Proof.
  intros Ha. unfold c_str. rewrite skipn_app, skipn_all, Nat.sub_diag.
  now apply strz_field.
Qed.

(** One iteration on a NUL. *)
Lemma loop_step_nul fuel pre rest n argc cmd :
  argc <> 0 -> (List.length pre < n)%nat ->
  args_loop (S fuel) (pre ++ NUL :: rest) n argc (List.length pre) cmd
  = args_loop fuel ((pre ++ [NUL]) ++ rest) n argc (List.length (pre ++ [NUL])) cmd.
Proof.
  intros Hargc Hp. cbn [args_loop].
  apply Z.eqb_neq in Hargc. rewrite Hargc.
  apply Nat.ltb_lt in Hp. rewrite Hp. cbn [orb negb].
  rewrite read_at; cbn [bind]. rewrite is_nul_NUL.
  rewrite <- app_assoc, length_app. cbn [app List.length].
  now rewrite Nat.add_1_r.
Qed.

(** One iteration on the first character of a string. *)
Lemma loop_step_field fuel pre a rest n argc cmd :
  argc <> 0 -> (List.length pre < n)%nat ->
  a <> [] -> no_nul a ->
  args_loop (S fuel) (pre ++ a ++ NUL :: rest) n argc (List.length pre) cmd
  = args_loop fuel ((pre ++ a) ++ NUL :: rest) n (to_int (argc - 1))
      (List.length (pre ++ a)) (cmd ++ a ++ [" "%char]).
Proof.
  intros Hargc Hp Hne Ha. cbn [args_loop].
  apply Z.eqb_neq in Hargc. rewrite Hargc.
  apply Nat.ltb_lt in Hp. rewrite Hp. cbn [orb negb].
  rewrite (c_str_at pre a rest Ha).
  destruct a as [|c a]; [contradiction |].
  cbn [app]. rewrite read_at; cbn [bind].
  inversion_clear Ha as [|? ? Hc _]. rewrite Hc.
  unfold StringBuffer_append; cbn [negb].
  rewrite <- app_assoc, length_app. reflexivity.
Qed.

Lemma skip_padding m :
  forall fuel pre rest n argc cmd,
    argc <> 0 -> (List.length pre + m <= n)%nat ->
    args_loop (m + fuel) (pre ++ repeat NUL m ++ rest) n argc (List.length pre) cmd
    = args_loop fuel ((pre ++ repeat NUL m) ++ rest) n argc
        (List.length (pre ++ repeat NUL m)) cmd.
Proof.
  induction m as [|m IH]; intros fuel pre rest n argc cmd Hargc Hn.
  - cbn [repeat app Nat.add]. now rewrite app_nil_r.
  - cbn [repeat app Nat.add].
    rewrite loop_step_nul by (assumption || lia).
    rewrite <- (app_assoc pre [NUL] (repeat NUL m ++ rest)). cbn [app].
    change (pre ++ NUL :: repeat NUL m ++ rest)
      with (pre ++ [NUL] ++ repeat NUL m ++ rest).
    rewrite (app_assoc pre [NUL]).
    rewrite IH by (assumption || (rewrite length_app; simpl; lia)).
    rewrite <- !app_assoc. reflexivity.
Qed.

Lemma fields_taken_step argc len :
  argc <> 0 -> - 2 ^ 31 < argc < 2 ^ 31 ->
  fields_taken argc (S len) = S (fields_taken (to_int (argc - 1)) len).
Proof.
  intros Hne Hr. rewrite to_int_small by lia.
  unfold fields_taken.
  destruct (Z.ltb_spec argc 0); destruct (Z.ltb_spec (argc - 1) 0); try lia.
  all: try (replace (Z.to_nat argc) with (S (Z.to_nat (argc - 1))) by lia; reflexivity).
Qed.

Lemma fields_taken_zero len : fields_taken 0 len = 0%nat.
Proof. reflexivity. Qed.

Lemma args_loop_layout fs :
  Forall field_ok fs ->
  forall pre tail cmd argc fuel n,
    n = (List.length pre + List.length (layout fs))%nat ->
    (List.length (layout fs) <= fuel)%nat ->
    - 2 ^ 31 + Z.of_nat (List.length fs) < argc < 2 ^ 31 ->
    args_loop fuel (pre ++ layout fs ++ tail) n argc (List.length pre) cmd
    = Ok (cmd ++ render (firstn (fields_taken argc (List.length fs)) fs)).
Proof.
  change (2 ^ 31) with 2147483648.
  induction 1 as [|[m a] fs [Hne Ha] _ IH]; intros pre tail cmd argc fuel n Hn Hfuel Hargc.
  - cbn [layout List.length] in *.
    destruct (Z.eq_dec argc 0) as [-> | Hnz].
    + destruct fuel; cbn [args_loop Z.eqb orb]; now rewrite app_nil_r.
    + destruct fuel as [|fuel]; [simpl in Hfuel; lia |].
      cbn [app]. rewrite loop_step_nul by (assumption || lia).
      assert (E : (List.length (pre ++ [NUL]) <? n)%nat = false).
      { apply Nat.ltb_ge. rewrite length_app. simpl. lia. }
      destruct fuel; cbn [args_loop]; rewrite E, orb_true_r;
        unfold fields_taken; destruct (argc <? 0); cbn [Nat.min firstn];
        rewrite ?Nat.min_0_r; cbn [firstn]; unfold render; cbn [map List.concat];
        now rewrite app_nil_r.
  - destruct (Z.eq_dec argc 0) as [-> | Hnz].
    + rewrite fields_taken_zero. cbn [firstn]. unfold render; cbn [map List.concat].
      destruct fuel; cbn [args_loop Z.eqb orb]; now rewrite app_nil_r.
    + cbn [layout] in *. cbn [List.length] in Hargc.
      rewrite length_app, repeat_length, length_app in Hn, Hfuel.
      assert (Hla : (1 <= List.length a)%nat).
      { destruct a; [contradiction | simpl; lia]. }
      destruct (layout_head fs) as (r & Er).
      replace fuel with (S m + (fuel - S m))%nat by lia.
      rewrite <- (app_assoc (repeat NUL (S m))).
      rewrite skip_padding by (assumption || lia).
      remember (pre ++ repeat NUL (S m)) as pre1 eqn:Epre1.
      assert (Hl1 : List.length pre1 = (List.length pre + S m)%nat).
      { subst pre1. now rewrite length_app, repeat_length. }
      destruct (fuel - S m)%nat as [|fuel1] eqn:Ef; [lia |].
      rewrite <- (app_assoc a). rewrite Er at 1. cbn [app].
      rewrite loop_step_field by (assumption || lia).
      change (NUL :: r ++ tail) with ((NUL :: r) ++ tail). rewrite <- Er.
      rewrite IH.
      * cbn [List.length]. rewrite fields_taken_step by (assumption || (change (2 ^ 31) with 2147483648; lia)).
        cbn [firstn]. unfold render; cbn [map List.concat snd].
        now rewrite <- !app_assoc.
      * rewrite length_app. lia.
      * lia.
      * rewrite to_int_small by (change (2 ^ 31) with 2147483648; lia).
        lia.
Qed.

End DecoderLayout.

Lemma char_to_int_range c : - 128 <= ProcArgs.char_to_int c < 128.
Proof.
  unfold ProcArgs.char_to_int, to_schar, wrap_signed.
  change (2 ^ (8 - 1)) with 128. change (2 ^ 8) with 256.
  pose proof (Z.mod_pos_bound (Z.of_nat (nat_of_ascii c) + 128) 256). lia.
Qed.

Lemma render_nonempty f fs : (1 <= List.length (render (f :: fs)))%nat.
Proof.
  unfold render; cbn [map List.concat]. rewrite !length_app. simpl. lia.
Qed.

Lemma fields_taken_le argc len : (fields_taken argc len <= len)%nat.
Proof. unfold fields_taken. destruct (argc <? 0); lia. Qed.

(** X1: on a reply laid out as the kernel documents it (count, executable
    path, NUL-separated non-empty strings with any padding), whatever
    follows the declared bytes in the buffer, the decoder returns the first
    [count] strings, each followed by a space, trimmed; strings beyond the
    count (the environment) are left out.  The count is the sign-extended
    first byte: a negative one takes every string, and the next three bytes
    play no part.  With nothing taken the command line stays [NULL]. *)
Theorem decode_well_formed_reply :
  forall c0 b1 b2 b3 exe fs tail,
    no_nul exe ->
    Forall field_ok fs ->
    Z.of_nat (List.length fs) < 2 ^ 30 ->
    let blob := procargs_blob c0 b1 b2 b3 exe fs in
    let k := fields_taken (ProcArgs.char_to_int c0) (List.length fs) in
    ProcArgs.decode (blob ++ tail) (List.length blob)
    = Ok (if (k =? 0)%nat then None
          else Some (ProcArgs.StringBuffer_trim (render (firstn k fs)))).
Proof.
  intros c0 b1 b2 b3 exe fs tail Hexe Hfs Hlen blob k.
  change (2 ^ 30) with 1073741824 in Hlen.
  pose proof (char_to_int_range c0) as Hc0.
  destruct (layout_head fs) as (r & Er).
  unfold ProcArgs.decode. subst blob. unfold procargs_blob.
  cbn [app ProcArgs.read nth_error bind].
  assert (Ecs : ProcArgs.c_str (c0 :: b1 :: b2 :: b3 :: (exe ++ layout fs) ++ tail) 4 = Ok exe).
  { unfold ProcArgs.c_str. cbn [skipn]. rewrite <- app_assoc, Er. cbn [app].
    now apply strz_field. }
  rewrite Ecs; cbn [bind].
  change (c0 :: b1 :: b2 :: b3 :: (exe ++ layout fs) ++ tail)
    with ([c0; b1; b2; b3] ++ (exe ++ layout fs) ++ tail).
  rewrite <- (app_assoc exe), (app_assoc [c0; b1; b2; b3] exe).
  change (4 + List.length exe)%nat with (List.length ([c0; b1; b2; b3] ++ exe)).
  rewrite (args_loop_layout fs Hfs ([c0; b1; b2; b3] ++ exe) tail []).
  - cbn [bind app]. fold k.
    pose proof (fields_taken_le (ProcArgs.char_to_int c0) (List.length fs)) as Hk.
    fold k in Hk.
    destruct k as [|k']; [reflexivity |].
    destruct fs as [|f fs']; [simpl in Hk; lia |].
    cbn [firstn].
    pose proof (render_nonempty f (firstn k' fs')) as Hr.
    destruct (List.length (render (f :: firstn k' fs'))); [lia | reflexivity].
  - cbn [List.length app]. rewrite !length_app. cbn [List.length]. lia.
  - cbn [List.length app]. rewrite length_app. lia.
  - change (2 ^ 31) with 2147483648. lia.
Qed.

Lemma decode_well_formed_reply_witness :
  ProcArgs.decode (ls_blob ++ bytes "PATH=/bin") 25 = Ok (Some (bytes "-l --color")).
Proof.
  refine (decode_well_formed_reply (ascii_of_nat 2) ProcArgs.NUL ProcArgs.NUL ProcArgs.NUL
            (bytes "/bin/ls") [(2%nat, bytes "-l"); (0%nat, bytes "--color")]
            (bytes "PATH=/bin") _ _ _).
  - repeat constructor.
  - repeat constructor; discriminate.
  - vm_compute. reflexivity.
Defined.

(** X2: when the first byte of the reply is NUL (a count of 0, or any
    count whose low byte is 0, such as 256), or when the declared length
    ends within the executable path, the loop body never runs and the
    command line stays [NULL], whatever the rest of the buffer holds. *)
Theorem decode_without_arguments :
  forall args n c0 exe,
    ProcArgs.read args 0 = Ok c0 ->
    ProcArgs.c_str args 4 = Ok exe ->
    c0 = ProcArgs.NUL \/ (n <= 4 + List.length exe)%nat ->
    ProcArgs.decode args n = Ok None.
Proof.
  intros args n c0 exe Hr Hs Hcase. unfold ProcArgs.decode.
  rewrite Hr, Hs; cbn [bind].
  assert (E : ProcArgs.args_loop n args n (ProcArgs.char_to_int c0)
                (4 + List.length exe) [] = Ok []).
  { destruct Hcase as [-> | Hn].
    - destruct n; reflexivity.
    - assert (Hlt : (4 + List.length exe <? n)%nat = false) by (apply Nat.ltb_ge; lia).
      destruct n; cbn [ProcArgs.args_loop]; rewrite Hlt, orb_true_r; reflexivity. }
  rewrite E. reflexivity.
Qed.

Lemma decode_without_arguments_witness :
  ProcArgs.decode
    ([ProcArgs.NUL; ascii_of_nat 1; ProcArgs.NUL; ProcArgs.NUL]
       ++ bytes "/bin/ls" ++ [ProcArgs.NUL] ++ bytes "-l" ++ [ProcArgs.NUL]) 15
  = Ok None.
Proof.
  apply (decode_without_arguments _ 15%nat ProcArgs.NUL (bytes "/bin/ls"));
    [reflexivity | reflexivity | left; reflexivity].
Defined.

(** ** Snapshots and the process table *)

Section SnapshotShape.

Import Tree.

Lemma thread_loop_cpu_percent threads :
  forall pt, cpu_percent pt = 0 -> cpu_percent (fold_left thread_step threads pt) = 0.
Proof.
  induction threads as [|t threads IH]; intros pt Hp; cbn [fold_left]; [assumption |].
  apply IH. destruct t as [th|]; cbn [thread_step]; [| assumption].
  now destruct (Z.land (flags th) TH_FLAGS_IDLE =? 0).
Qed.

Lemma enrich_cpu_percent r pt : cpu_percent pt = 0 -> cpu_percent (enrich r pt) = 0.
Proof.
  intros Hp. unfold enrich.
  destruct (kern_ok (task_for_pid r)); [| assumption].
  destruct (task_info r) as [ti|]; destruct (task_threads r) as [threads|];
    try apply thread_loop_cpu_percent; trivial.
Qed.

Lemma enrich_identity r pt :
  record_identity (enrich r pt) = record_identity pt
  /\ zombie (enrich r pt) = zombie pt
  /\ time (enrich r pt) = time pt.
Proof.
  destruct (enrich_usage_only r pt) as (m & c & p & E). rewrite E.
  repeat split.
Qed.

Lemma read_cmdline_frame size args e pt pt1 args1 :
  read_cmdline size args e pt = Ok (pt1, args1) ->
  exists c, pt1 = set_cmdline pt c.
Proof.
  unfold read_cmdline.
  assert (Hid : pt = set_cmdline pt (cmdline pt)) by now destruct pt.
  destruct (procargs2 e) as [data|].
  - destruct (ProcArgs.copyout args size data) as [[ok a] n].
    destruct ok.
    + destruct (ProcArgs.decode a n) as [c| |]; cbn [bind]; try discriminate.
      intros [= <- _]. destruct c; eauto.
    + intros [= <- _]. eauto.
  - intros [= <- _]. eauto.
Qed.

(** What an iteration stores besides the command line and the usage. *)
Lemma process_entry_frame sip_enabled size args e pt args' :
  process_entry sip_enabled size args e = Ok (pt, args') ->
  record_identity pt = kernel_identity e
  /\ zombie pt = kernel_zombie e
  /\ time pt = float_time e
  /\ cpu_percent pt = 0.
Proof.
  intros H. apply process_entry_inv in H. destruct H as (pt1 & Hr & ->).
  apply read_cmdline_frame in Hr. destruct Hr as (c & ->).
  unfold enrich_passes.
  destruct (enrich_identity (pass2 e)
              (if negb sip_enabled
               then enrich (pass1 e)
                      (stamp e (name_fallback (kinfo e)
                                  (set_cmdline (identity_fields (kinfo e)) c)))
               else stamp e (name_fallback (kinfo e)
                               (set_cmdline (identity_fields (kinfo e)) c))))
    as (E1 & E2 & E3).
  rewrite E1, E2, E3.
  assert (Hbase : forall q, q = stamp e (name_fallback (kinfo e)
                                           (set_cmdline (identity_fields (kinfo e)) c)) ->
                            record_identity q = kernel_identity e
                            /\ zombie q = kernel_zombie e
                            /\ time q = float_time e
                            /\ cpu_percent q = 0).
  { intros q ->. unfold name_fallback, kernel_zombie.
    destruct (is_empty_cmdline _); cbn; destruct (p_stat (kinfo e) =? SZOMB);
      repeat split. }
  destruct (Hbase _ eq_refl) as (B1 & B2 & B3 & B4).
  destruct (negb sip_enabled).
  - destruct (enrich_identity (pass1 e)
                (stamp e (name_fallback (kinfo e)
                            (set_cmdline (identity_fields (kinfo e)) c))))
      as (F1 & F2 & F3).
    rewrite F1, F2, F3. repeat split; try assumption.
    now apply enrich_cpu_percent, enrich_cpu_percent.
  - repeat split; try assumption. now apply enrich_cpu_percent.
Qed.

Lemma fill_tree_Forall2 sip_enabled size es :
  forall args pts,
    fill_tree sip_enabled size args es = Ok pts ->
    Forall2 (fun e pt => exists a0 a1, process_entry sip_enabled size a0 e = Ok (pt, a1))
            es pts.
Proof.
  induction es as [|e es IH]; intros args pts; cbn [fill_tree].
  - intros [= <-]. constructor.
  - destruct (process_entry sip_enabled size args e) as [[pt0 args0]| |] eqn:E;
      cbn [bind]; try discriminate.
    destruct (fill_tree sip_enabled size args0 es) as [pts0| |] eqn:Ef;
      cbn [bind]; try discriminate.
    intros [= <-]. constructor; [eauto | eapply IH; eassumption].
Qed.

End SnapshotShape.

(** X3: a snapshot mirrors the kernel's process table entry by entry, in
    the kernel's order: the records carry the pid, parent pid, uids, gid
    and start time of the entries, are flagged zombie exactly for entries in
    state [SZOMB], and all have a CPU percentage of 0; the returned count
    is the number of entries.  Neither the restriction flag nor any task
    query changes that. *)
Theorem snapshot_mirrors_process_table :
  forall g env n pts pinfo,
    Tree.initprocesstree_sysdep g env = Ok (n, Some pts) ->
    Tree.kern_proc_all env = Some pinfo ->
    map record_identity pts = map kernel_identity pinfo
    /\ map Tree.zombie pts = map kernel_zombie pinfo
    /\ Forall (fun pt => Tree.cpu_percent pt = 0) pts
    /\ n = to_int (Z.of_nat (List.length pinfo)).
Proof.
  unfold Tree.initprocesstree_sysdep. intros g env n pts pinfo H Hp. rewrite Hp in H.
  destruct (negb (Tree.kern_proc_size_ok env)); [discriminate |].
  destruct (Tree.kern_argmax env) as [size|]; [| discriminate].
  destruct (Tree.fill_tree (isSipEnabled g) size (repeat ProcArgs.NUL (size + 1)) pinfo)
    as [pts0| |] eqn:Ef; cbn [bind] in H; try discriminate.
  injection H as <- <-.
  apply fill_tree_Forall2 in Ef. clear Hp.
  split; [| split; [| split; [| reflexivity]]].
  - induction Ef as [|e pt es ps (a0 & a1 & He) _ IH]; [reflexivity |].
    cbn [map]. rewrite IH. f_equal. now apply process_entry_frame in He.
  - induction Ef as [|e pt es ps (a0 & a1 & He) _ IH]; [reflexivity |].
    cbn [map]. rewrite IH. f_equal. now apply process_entry_frame in He.
  - induction Ef as [|e pt es ps (a0 & a1 & He) _ IH]; constructor; [| assumption].
    now apply process_entry_frame in He.
Qed.

Lemma snapshot_mirrors_process_table_witness :
  exists pts,
    Tree.initprocesstree_sysdep statics_booted
      (Tree.mkSnapshotEnv true (Some [ls_process; own_process]) (Some 64%nat))
    = Ok (2, Some pts)
    /\ map Tree.pid pts = [400; 321].
Proof.
  eexists. split; [vm_compute; reflexivity |].
  pose proof (snapshot_mirrors_process_table statics_booted
                (Tree.mkSnapshotEnv true (Some [ls_process; own_process]) (Some 64%nat))
                _ _ _ eq_refl eq_refl) as (H & _).
  apply (f_equal (map (fun x => fst (fst (fst (fst (fst x))))))) in H.
  rewrite !map_map in H. exact H.
Defined.

(** X4: with [KERN_ARGMAX] of at least 4 a snapshot always completes and
    no read leaves the argument buffer, whatever the kernel replies.  It
    returns 0 and stores nothing when the size probe, the table query or
    the [KERN_ARGMAX] query fails; otherwise it returns the number of table
    entries and stores as many records. *)
Theorem snapshot_completes_or_fails_early :
  forall g env,
    (forall size, Tree.kern_argmax env = Some size -> (4 <= size)%nat) ->
    exists r,
      Tree.initprocesstree_sysdep g env = Ok r
      /\ (Tree.kern_proc_size_ok env = false \/ Tree.kern_proc_all env = None
          \/ Tree.kern_argmax env = None -> r = (0, None))
      /\ (forall pinfo size,
             Tree.kern_proc_size_ok env = true ->
             Tree.kern_proc_all env = Some pinfo ->
             Tree.kern_argmax env = Some size ->
             exists pts,
               r = (to_int (Z.of_nat (List.length pinfo)), Some pts)
               /\ List.length pts = List.length pinfo).
Proof.
  intros g env Hmax. unfold Tree.initprocesstree_sysdep.
  destruct (Tree.kern_proc_size_ok env); cbn [negb].
  2: { exists (0, None).
       split; [reflexivity | split; [intros _; reflexivity | intros ? ? H1 H2 H3; discriminate]]. }
  destruct (Tree.kern_proc_all env) as [pinfo|].
  2: { exists (0, None).
       split; [reflexivity | split; [intros _; reflexivity | intros ? ? H1 H2 H3; discriminate]]. }
  destruct (Tree.kern_argmax env) as [size|].
  2: { exists (0, None).
       split; [reflexivity | split; [intros _; reflexivity | intros ? ? H1 H2 H3; discriminate]]. }
  specialize (Hmax size eq_refl).
  replace (repeat ProcArgs.NUL (size + 1)) with (repeat ProcArgs.NUL size ++ [ProcArgs.NUL])
    by (now rewrite repeat_app).
  destruct (fill_tree_total (isSipEnabled g) size pinfo Hmax (repeat ProcArgs.NUL size))
    as (pts & E & Hlen); [apply repeat_length |].
  rewrite E; cbn [bind]. eexists. split; [reflexivity |]. split.
  - intros [H | [H | H]]; discriminate H.
  - intros pinfo' size' _ [= <-] [= <-]. now exists pts.
Qed.

Lemma snapshot_completes_or_fails_early_witness :
  exists r, Tree.initprocesstree_sysdep statics_booted own_snapshot = Ok r.
Proof.
  destruct (snapshot_completes_or_fails_early statics_booted own_snapshot) as (r & H & _).
  - intros size [= <-]. lia.
  - now exists r.
Defined.

(** X5: a process whose task cannot be opened in any enrichment block that
    runs (the second, and the first when the flag is clear) is still
    listed, with memory and CPU time 0. *)
Theorem denied_process_has_zero_usage :
  forall sip_enabled size args e pt args',
    Tree.process_entry sip_enabled size args e = Ok (pt, args') ->
    kern_ok (Tree.task_for_pid (Tree.pass2 e)) = false ->
    sip_enabled = true \/ kern_ok (Tree.task_for_pid (Tree.pass1 e)) = false ->
    Tree.mem_kbyte pt = 0 /\ Tree.cputime pt = 0.
Proof.
  intros sip_enabled size args e pt args' H Hk2 Hk1.
  apply process_entry_inv in H. destruct H as (pt1 & Hr & ->).
  apply read_cmdline_frame in Hr. destruct Hr as (c & ->).
  unfold Tree.enrich_passes, Tree.enrich. rewrite Hk2.
  assert (Hz : forall q, q = Tree.stamp e (Tree.name_fallback (Tree.kinfo e)
                                             (Tree.set_cmdline
                                                (Tree.identity_fields (Tree.kinfo e)) c)) ->
                         Tree.mem_kbyte q = 0 /\ Tree.cputime q = 0).
  { intros q ->. unfold Tree.name_fallback.
    destruct (Tree.is_empty_cmdline _); split; reflexivity. }
  destruct sip_enabled; cbn [negb].
  - now apply Hz.
  - destruct Hk1 as [Hk1 | Hk1]; [discriminate |]. rewrite Hk1. now apply Hz.
Qed.

Lemma denied_process_has_zero_usage_witness :
  exists pt args',
    Tree.process_entry false 64 (repeat ProcArgs.NUL 65) ls_process = Ok (pt, args')
    /\ Tree.mem_kbyte pt = 0 /\ Tree.cputime pt = 0.
Proof.
  do 2 eexists. split; [vm_compute; reflexivity |].
  apply (denied_process_has_zero_usage false 64 (repeat ProcArgs.NUL 65) ls_process _ _
           eq_refl eq_refl).
  right. reflexivity.
Defined.

(** ** Accuracy and sign of the usage fields *)

Lemma tenths_bound u s :
  100000 * tenths u s <= usec u + usec s < 100000 * (tenths u s + 1).
Proof.
  unfold tenths.
  pose proof (Z.mul_div_le (usec u + usec s) 100000 eq_refl).
  pose proof (Z.mul_succ_div_gt (usec u + usec s) 100000 eq_refl).
  lia.
Qed.

Lemma threads_usec_bound threads :
  100000 * threads_tenths threads
  <= fold_right Z.add 0 (map thread_usec threads)
  <= 100000 * threads_tenths threads + 99999 * Z.of_nat (List.length threads).
Proof.
  unfold threads_tenths.
  induction threads as [|t threads IH]; cbn [map fold_right List.length]; [lia |].
  assert (Ht : 100000 * thread_tenths t <= thread_usec t <= 100000 * thread_tenths t + 99999).
  { destruct t as [th|]; cbn [thread_tenths thread_usec]; [| lia].
    destruct (Z.land (Tree.flags th) Tree.TH_FLAGS_IDLE =? 0); [| lia].
    pose proof (tenths_bound (Tree.th_user_time th) (Tree.th_system_time th)). lia. }
  lia.
Qed.

(** X6: for task and thread times that are normalised (microseconds from
    0 to 999999) with every user and system time from 0 to below 10^8
    seconds, and a thread table of fewer than 2^32 entries, the CPU-time
    field never overstates the time used: in units of 100000 microseconds
    it is at most the user+system time of the task and its busy threads,
    and it falls short of it by less than one unit for the task and one for
    each entry of the thread table, because every term is truncated on its
    own. *)
Theorem cputime_truncation_bound :
  forall pt ti threads,
    task_times_ok ti ->
    Forall thread_times_ok threads ->
    Z.of_nat (List.length threads) < 2 ^ 32 ->
    let pt' := Tree.enrich (Tree.mkTaskReplies KERN_SUCCESS (Some ti) (Some threads)) pt in
    100000 * Tree.cputime pt' <= cpu_usec ti threads
    /\ cpu_usec ti threads
       < 100000 * (Tree.cputime pt' + 1 + Z.of_nat (List.length threads)).
Proof.
  intros pt ti threads [Hu Hs] Hall Hlen pt'.
  change (2 ^ 32) with 4294967296 in Hlen.
  destruct (time_units_tenths _ _ Hu Hs) as [Et Hr].
  assert (Ec : Tree.cputime pt'
               = tenths (Tree.user_time ti) (Tree.system_time ti) + threads_tenths threads).
  { subst pt'. unfold Tree.enrich.
    cbn [Tree.task_for_pid Tree.task_info Tree.task_threads kern_ok].
    match goal with
    | |- context [fold_left Tree.thread_step threads ?p] =>
        destruct (thread_loop_sum threads Hall p) as [Ec _]
    end.
    - cbn [Tree.cputime Tree.set_usage]. lia.
    - cbn [Tree.cputime Tree.set_usage].
      change (2 ^ 63) with 9223372036854775808. lia.
    - rewrite Ec. cbn [Tree.cputime Tree.set_usage]. now rewrite Et. }
  rewrite Ec. unfold cpu_usec.
  pose proof (tenths_bound (Tree.user_time ti) (Tree.system_time ti)).
  pose proof (threads_usec_bound threads).
  lia.
Qed.

Lemma cputime_truncation_bound_witness :
  let pt' := Tree.enrich replies_1s5 Tree.pt_zero in
  100000 * Tree.cputime pt' <= 1800000 /\ 1800000 < 100000 * (Tree.cputime pt' + 1 + 3).
Proof.
  refine (cputime_truncation_bound Tree.pt_zero task_1s5 _ _ _ _).
  - repeat split; vm_compute; (discriminate || reflexivity).
  - repeat constructor; vm_compute; (discriminate || reflexivity).
  - vm_compute. reflexivity.
Defined.

Lemma enrich_bounds r pt B :
  replies_ok r ->
  0 <= Tree.mem_kbyte pt ->
  0 <= Tree.cputime pt <= B ->
  2000000019 <= B ->
  B + 2000000019 * 2 ^ 31 < 2 ^ 63 ->
  0 <= Tree.mem_kbyte (Tree.enrich r pt)
  /\ 0 <= Tree.cputime (Tree.enrich r pt) <= B + 2000000019 * 2 ^ 31.
Proof.
  change (2 ^ 31) with 2147483648. change (2 ^ 63) with 9223372036854775808.
  intros [Hi Ht] Hm Hc HB Hbound. unfold Tree.enrich.
  destruct (kern_ok (Tree.task_for_pid r)); [| lia].
  assert (Hloop : forall q,
             0 <= Tree.mem_kbyte q -> 0 <= Tree.cputime q <= B ->
             0 <= Tree.mem_kbyte
                    (match Tree.task_threads r with
                     | Some threadtable => fold_left Tree.thread_step threadtable q
                     | None => q
                     end)
             /\ 0 <= Tree.cputime
                       (match Tree.task_threads r with
                        | Some threadtable => fold_left Tree.thread_step threadtable q
                        | None => q
                        end) <= B + 2000000019 * 2147483648).
  { intros q Hqm Hqc.
    destruct (Tree.task_threads r) as [threads|]; [| lia].
    destruct Ht as [Hall Hlen]. change (2 ^ 31) with 2147483648 in Hlen.
    pose proof (threads_tenths_range threads Hall) as Hr.
    destruct (thread_loop_sum threads Hall q) as [Ec Em];
      [lia | change (2 ^ 63) with 9223372036854775808; nia |].
    rewrite Ec, Em. nia. }
  destruct (Tree.task_info r) as [ti|].
  - destruct Hi as [Hres [Hu Hs]].
    destruct (time_units_tenths _ _ Hu Hs) as [_ Hr].
    apply Hloop; cbn [Tree.mem_kbyte Tree.cputime Tree.set_usage].
    + apply Z.div_pos; lia.
    + lia.
  - now apply Hloop.
Qed.

(** X7: for replies with a non-negative resident size, times that are
    normalised (microseconds from 0 to 999999) with every user and system
    time from 0 to below 10^8 seconds, and fewer than 2^31 threads per
    table, the memory and CPU-time fields of every record are non-negative,
    whichever of the queries of the two blocks succeed or fail.  (Beyond
    that bound on the seconds the [int] arithmetic of the source can wrap
    to a negative value.) *)
Theorem usage_is_never_negative :
  forall sip_enabled size args e pt args',
    Tree.process_entry sip_enabled size args e = Ok (pt, args') ->
    replies_ok (Tree.pass1 e) ->
    replies_ok (Tree.pass2 e) ->
    0 <= Tree.mem_kbyte pt /\ 0 <= Tree.cputime pt.
Proof.
  intros sip_enabled size args e pt args' H H1 H2.
  apply process_entry_inv in H. destruct H as (pt1 & Hr & ->).
  apply read_cmdline_frame in Hr. destruct Hr as (c & ->).
  set (q := Tree.stamp e (Tree.name_fallback (Tree.kinfo e)
                            (Tree.set_cmdline (Tree.identity_fields (Tree.kinfo e)) c))).
  assert (Hq : Tree.mem_kbyte q = 0 /\ Tree.cputime q = 0).
  { subst q. unfold Tree.name_fallback.
    destruct (Tree.is_empty_cmdline _); split; reflexivity. }
  destruct Hq as [Hqm Hqc].
  unfold Tree.enrich_passes.
  assert (Hp1 : 0 <= Tree.mem_kbyte (if negb sip_enabled then Tree.enrich (Tree.pass1 e) q else q)
                /\ 0 <= Tree.cputime (if negb sip_enabled
                                      then Tree.enrich (Tree.pass1 e) q else q)
                   <= 2000000019 + 2000000019 * 2 ^ 31).
  { destruct (negb sip_enabled).
    - apply enrich_bounds; try assumption; try lia;
        change (2 ^ 31) with 2147483648; change (2 ^ 63) with 9223372036854775808; lia.
    - rewrite Hqm, Hqc. change (2 ^ 31) with 2147483648. lia. }
  destruct Hp1 as [Hm1 Hc1].
  destruct (enrich_bounds (Tree.pass2 e) _ _ H2 Hm1 Hc1) as (Hm & Hc & _).
  - change (2 ^ 31) with 2147483648. lia.
  - change (2 ^ 31) with 2147483648. change (2 ^ 63) with 9223372036854775808. lia.
  - split; assumption.
Qed.

Lemma usage_is_never_negative_witness :
  exists pt args',
    Tree.process_entry false 64 (repeat ProcArgs.NUL 65) own_process = Ok (pt, args')
    /\ 0 <= Tree.mem_kbyte pt /\ 0 <= Tree.cputime pt.
Proof.
  assert (Hok : replies_ok replies_1s5).
  { split.
    - repeat split; vm_compute; (discriminate || reflexivity).
    - split; [repeat constructor; vm_compute; (discriminate || reflexivity)
             | vm_compute; reflexivity]. }
  do 2 eexists. split; [vm_compute; reflexivity |].
  exact (usage_is_never_negative false 64 (repeat ProcArgs.NUL 65) own_process _ _
           eq_refl Hok Hok).
Defined.

(** ** Consecutive CPU samples *)

(** X8: for two consecutive successful samples whose tick counters did not
    run backwards, the second reports the sentinel for both percentages
    when no tick elapsed at all, and otherwise the per-mille shares of the
    user and system deltas in the total delta: both are non-negative and
    together they never exceed 1000. *)
Theorem cpu_percent_within_bounds :
  forall g ci1 ci2 si1 si2,
    Cpu.ticks_ok ci1 ->
    Cpu.ticks_ok ci2 ->
    Forall2 Z.le ci1 ci2 ->
    let g1 := snd (fst (Cpu.used_system_cpu_sysdep g (Cpu.mkCpuReply KERN_SUCCESS ci1) si1)) in
    let si' := snd (Cpu.used_system_cpu_sysdep g1 (Cpu.mkCpuReply KERN_SUCCESS ci2) si2) in
    let total := Cpu.sum_ticks ci2 - Cpu.sum_ticks ci1 in
    let user := total_cpu_user_percent si' in
    let syst := total_cpu_syst_percent si' in
    (total = 0 -> user = Cpu.NOT_COMPUTABLE /\ syst = Cpu.NOT_COMPUTABLE)
    /\ (0 < total ->
        user = 1000 * (Cpu.tick ci2 Cpu.CPU_STATE_USER - Cpu.tick ci1 Cpu.CPU_STATE_USER)
               / total
        /\ syst = 1000 * (Cpu.tick ci2 Cpu.CPU_STATE_SYSTEM - Cpu.tick ci1 Cpu.CPU_STATE_SYSTEM)
                  / total
        /\ 0 <= user /\ 0 <= syst /\ user + syst <= 1000).
Proof.
  intros g ci1 ci2 si1 si2 H1 H2 Hle g1 si' total user syst.
  destruct (sum_ticks_plain ci1 H1) as [Es1 Hr1].
  destruct (sum_ticks_plain ci2 H2) as [Es2 Hr2].
  subst user syst si' g1.
  unfold Cpu.used_system_cpu_sysdep;
    cbn [Cpu.kret Cpu.cpu_info snd fst total_old cpu_user_old cpu_syst_old
         total_cpu_user_percent total_cpu_syst_percent].
  fold total.
  destruct H1 as [Hl1 Ha1]. destruct H2 as [Hl2 Ha2].
  destruct ci1 as [|a1 [|b1 [|c1 [|d1 [|? ?]]]]]; try discriminate Hl1.
  destruct ci2 as [|a2 [|b2 [|c2 [|d2 [|? ?]]]]]; try discriminate Hl2.
  inversion_clear Hle as [|? ? ? ? La Hle1].
  inversion_clear Hle1 as [|? ? ? ? Lb Hle2].
  inversion_clear Hle2 as [|? ? ? ? Lc Hle3].
  inversion_clear Hle3 as [|? ? ? ? Ld _].
  inversion_clear Ha1 as [|? ? Ra1 Ha]. inversion_clear Ha as [|? ? Rb1 Ha'].
  inversion_clear Ha' as [|? ? Rc1 Ha]. inversion_clear Ha as [|? ? Rd1 _].
  inversion_clear Ha2 as [|? ? Ra2 Ha]. inversion_clear Ha as [|? ? Rb2 Ha'].
  inversion_clear Ha' as [|? ? Rc2 Ha]. inversion_clear Ha as [|? ? Rd2 _].
  unfold Cpu.tick, Cpu.CPU_STATE_USER, Cpu.CPU_STATE_SYSTEM in *. cbn [nth] in *.
  change (2 ^ 32) with 4294967296 in *. change (2 ^ 34) with 17179869184 in *.
  assert (R : forall z, - 17179869184 < z < 17179869184 -> to_long z = z).
  { intros z Hz. apply to_long_small.
    change (2 ^ 63) with 9223372036854775808. lia. }
  rewrite (R total) by (unfold total; lia).
  rewrite (R (a2 - a1)), (R (b2 - b1)) by lia.
  split.
  - intros Hz. rewrite Hz. cbn [Z.ltb Z.compare]. split; reflexivity.
  - intros Hpos. destruct (Z.ltb_spec 0 total); [| lia].
    unfold Cpu.per_mille. rewrite !Z.quot_div_nonneg by lia.
    assert (Ht : total = (a2 - a1) + (b2 - b1) + (c2 - c1) + (d2 - d1))
      by (unfold total; lia).
    pose proof (Z.mul_div_le (1000 * (a2 - a1)) total Hpos) as Qa.
    pose proof (Z.mul_div_le (1000 * (b2 - b1)) total Hpos) as Qb.
    assert (Pa : 0 <= 1000 * (a2 - a1) / total) by (apply Z.div_pos; lia).
    assert (Pb : 0 <= 1000 * (b2 - b1) / total) by (apply Z.div_pos; lia).
    assert (Sum : 1000 * (a2 - a1) / total + 1000 * (b2 - b1) / total <= 1000) by nia.
    rewrite !double_to_int_small by (change (2 ^ 31) with 2147483648; lia).
    repeat split; try assumption; try reflexivity.
Qed.

Lemma cpu_percent_within_bounds_witness :
  let g1 := snd (fst (Cpu.used_system_cpu_sysdep statics_booted
                        (Cpu.mkCpuReply KERN_SUCCESS [100; 50; 800; 0]) si_zero)) in
  let si' := snd (Cpu.used_system_cpu_sysdep g1
                    (Cpu.mkCpuReply KERN_SUCCESS [350; 150; 1450; 0]) si_zero) in
  total_cpu_user_percent si' = 250 /\ total_cpu_syst_percent si' = 100.
Proof.
  assert (H1 : Cpu.ticks_ok [100; 50; 800; 0])
    by (split; [reflexivity | repeat constructor; vm_compute; discriminate]).
  assert (H2 : Cpu.ticks_ok [350; 150; 1450; 0])
    by (split; [reflexivity | repeat constructor; vm_compute; discriminate]).
  assert (Hle : Forall2 Z.le [100; 50; 800; 0] [350; 150; 1450; 0])
    by (repeat constructor; vm_compute; discriminate).
  destruct (cpu_percent_within_bounds statics_booted _ _ si_zero si_zero H1 H2 Hle)
    as (_ & H).
  destruct (H eq_refl) as (Hu & Hs & _).
  split; [exact Hu | exact Hs].
Defined.

Lemma last_reading_some rs :
  forall ci, exists ci', last_reading (Some ci) rs = Some ci'.
Proof.
  unfold last_reading.
  induction rs as [|r rs IH]; intros ci; cbn [fold_left]; [eauto |].
  destruct (kern_ok (Cpu.kret r)); apply IH.
Qed.

Lemma cpu_step_success g si r :
  kern_ok (Cpu.kret r) = true ->
  accumulators_hold (fst (cpu_step (g, si) r)) (Cpu.cpu_info r).
Proof.
  unfold cpu_step, Cpu.used_system_cpu_sysdep; cbn [fst snd].
  destruct (Cpu.kret r); [| discriminate]. intros _. repeat split.
Qed.

Lemma cpu_step_failure g si r :
  kern_ok (Cpu.kret r) = false -> cpu_step (g, si) r = (g, si).
Proof.
  unfold cpu_step, Cpu.used_system_cpu_sysdep; cbn [fst snd].
  destruct (Cpu.kret r); [discriminate | reflexivity].
Qed.

Lemma cpu_run_last_reading rs :
  forall g si init,
    match init with
    | Some ci => accumulators_hold g ci
    | None => True
    end ->
    match last_reading init rs with
    | Some ci => accumulators_hold (fst (cpu_run (g, si) rs)) ci
    | None => cpu_run (g, si) rs = (g, si)
    end.
Proof.
  induction rs as [|r rs IH]; intros g si init Hinit.
  - destruct init; [assumption | reflexivity].
  - change (last_reading init (r :: rs))
      with (last_reading (if kern_ok (Cpu.kret r) then Some (Cpu.cpu_info r) else init) rs).
    change (cpu_run (g, si) (r :: rs)) with (cpu_run (cpu_step (g, si) r) rs).
    destruct (kern_ok (Cpu.kret r)) eqn:Ek.
    + pose proof (cpu_step_success g si r Ek) as Hs.
      destruct (cpu_step (g, si) r) as [g' si'].
      destruct (last_reading_some rs (Cpu.cpu_info r)) as (ci' & E).
      specialize (IH g' si' (Some (Cpu.cpu_info r)) Hs).
      rewrite E in *. exact IH.
    + rewrite (cpu_step_failure g si r Ek). now apply IH.
Qed.

(** X9: over any sequence of sampler calls the failed ones leave no trace:
    afterwards the accumulators hold the tick counters of the last call
    that succeeded, and if none succeeded the statics and the output are
    exactly what they were. *)
Theorem cpu_accumulators_track_last_success :
  forall rs g si,
    match last_reading None rs with
    | Some ci => accumulators_hold (fst (cpu_run (g, si) rs)) ci
    | None => cpu_run (g, si) rs = (g, si)
    end.
Proof.
  intros rs g si. now apply cpu_run_last_reading.
Qed.

(** ** Values of a successful memory sample *)

Lemma bytes_to_kbyte_exact x : 0 <= x < 2 ^ 53 -> Mem.bytes_to_kbyte x = x / 1024.
Proof.
  intros [Hlo Hhi]. unfold Mem.bytes_to_kbyte, Mem.round_to_double, wrap_unsigned.
  apply Z.ltb_lt in Hhi. rewrite Hhi. apply Z.ltb_lt in Hhi.
  rewrite Z.mod_small; [reflexivity |].
  change (2 ^ 53) with 9007199254740992 in Hhi.
  change (2 ^ 64) with 18446744073709551616. lia.
Qed.

(** Byte counts from 2^53 on are rounded by the conversion to [double]
    before they are divided. *)
Lemma bytes_to_kbyte_rounds_from_2_53 :
  Mem.bytes_to_kbyte (2 ^ 60 + 1023) = 2 ^ 50 + 1.
Proof. vm_compute. reflexivity. Qed.

(** X10: on success the used memory is the product of the wired plus
    active pages and the page size in KiB, taken modulo 2^32 because the
    source multiplies 32-bit unsigned operands: it is exact below 4 TiB and
    understated from there on.  For swap byte counts below 2^53, which a
    [double] holds exactly, the swap fields are the byte counts divided by
    1024, and the swap in use does not exceed the swap total when the
    kernel's byte counts do not. *)
Theorem memory_sample_wraps_at_32_bits :
  forall g page_info swap si,
    0 <= Mem.wire_count page_info < 2 ^ 32 ->
    0 <= Mem.active_count page_info < 2 ^ 32 ->
    0 <= pagesize_kbyte g < 2 ^ 31 ->
    0 <= Mem.xsu_used swap <= Mem.xsu_total swap ->
    Mem.xsu_total swap < 2 ^ 53 ->
    let '(ok, si') := Mem.used_system_memory_sysdep g
                        (Mem.mkReplies (Some page_info) (Some swap)) si in
    let exact := (Mem.wire_count page_info + Mem.active_count page_info) * pagesize_kbyte g in
    ok = true
    /\ total_mem_kbyte si' = exact mod 2 ^ 32
    /\ (exact < 2 ^ 32 -> total_mem_kbyte si' = exact)
    /\ (2 ^ 32 <= exact -> total_mem_kbyte si' < exact)
    /\ swap_kbyte_max si' = Mem.xsu_total swap / 1024
    /\ total_swap_kbyte si' = Mem.xsu_used swap / 1024
    /\ 0 <= total_swap_kbyte si' <= swap_kbyte_max si'.
Proof.
  intros g page_info swap si Hw Ha Hp Hs Hd.
  unfold Mem.used_system_memory_sysdep;
    cbn [Mem.host_vm_info Mem.vm_swapusage Mem.set_swap_used Mem.set_swap_max
         Mem.set_total_mem total_mem_kbyte swap_kbyte_max total_swap_kbyte].
  rewrite !bytes_to_kbyte_exact by lia.
  unfold Mem.used_kbyte, to_uint, wrap_unsigned.
  rewrite <- Z.mul_mod by (change (2 ^ 32) with 4294967296; lia).
  change (2 ^ 32) with 4294967296 in *. change (2 ^ 31) with 2147483648 in *.
  set (exact := (Mem.wire_count page_info + Mem.active_count page_info) * pagesize_kbyte g).
  assert (Hex : 0 <= exact) by (subst exact; nia).
  pose proof (Z.mod_pos_bound exact 4294967296 eq_refl) as Hm.
  split; [reflexivity |]. split; [reflexivity |].
  split; [intros Hlt; apply Z.mod_small; lia |].
  split; [intros Hge; lia |].
  split; [reflexivity |]. split; [reflexivity |].
  split; [apply Z.div_pos; lia | apply Z.div_le_mono; lia].
Qed.

Lemma memory_sample_wraps_at_32_bits_witness :
  total_mem_kbyte
    (snd (Mem.used_system_memory_sysdep statics_booted
            (Mem.mkReplies (Some (Mem.mkVm 1073741824 5)) (Some (Mem.mkSwap 2048 1024)))
            si_zero))
  = (1073741829 * 4) mod 2 ^ 32.
Proof.
  assert (H1 : 0 <= 1073741824 < 2 ^ 32) by lia.
  assert (H2 : 0 <= 5 < 2 ^ 32) by lia.
  assert (H3 : 0 <= 4 < 2 ^ 31) by lia.
  assert (H4 : 0 <= 1024 <= 2048) by lia.
  assert (H5 : 2048 < 2 ^ 53) by lia.
  pose proof (memory_sample_wraps_at_32_bits statics_booted (Mem.mkVm 1073741824 5)
                (Mem.mkSwap 2048 1024) si_zero H1 H2 H3 H4 H5) as H.
  destruct (Mem.used_system_memory_sysdep statics_booted
              (Mem.mkReplies (Some (Mem.mkVm 1073741824 5)) (Some (Mem.mkSwap 2048 1024)))
              si_zero) as [ok si'].
  destruct H as (_ & Hm & _). exact Hm.
Defined.

(** ** Initialisation *)

Lemma probe_frame g r :
  let g' := snd (Sip._isSipEnabled g r) in
  hz g' = hz g /\ pagesize_kbyte g' = pagesize_kbyte g /\
  total_old g' = total_old g /\ cpu_user_old g' = cpu_user_old g /\
  cpu_syst_old g' = cpu_syst_old g.
Proof.
  unfold Sip._isSipEnabled.
  destruct (kern_ok (Sip.host_processor_set_priv r));
    destruct (kern_ok (Sip.processor_set_tasks r)); cbn; repeat split.
Qed.

(** X11: initialisation succeeds exactly when all four [sysctl] queries
    do.  It stops at the first failing query: the restriction probe is then
    not run and the flag keeps its value, while what earlier queries
    returned has already been stored (the clock rate, for one).  On success
    the clock rate, the CPU count, the memory size in KiB and the page size
    in KiB are stored.  The CPU accumulators and the sampler's output
    fields are never touched. *)
Theorem init_stops_at_first_failing_query :
  forall g systeminfo r,
    let '(ok, g', si') := Sip.init_process_info_sysdep g systeminfo r in
    (ok = true <->
     Sip.kern_clockrate r <> None /\ Sip.hw_ncpu r <> None /\
     Sip.hw_memsize r <> None /\ Sip.hw_pagesize r <> None)
    /\ (ok = false ->
        isSipEnabled g' = isSipEnabled g /\ pagesize_kbyte g' = pagesize_kbyte g)
    /\ (forall clock, Sip.kern_clockrate r = Some clock -> hz g' = clock)
    /\ (ok = true ->
        forall ncpu memsize pagesize,
          Sip.hw_ncpu r = Some ncpu ->
          Sip.hw_memsize r = Some memsize ->
          Sip.hw_pagesize r = Some pagesize ->
          cpus si' = ncpu /\ mem_kbyte_max si' = memsize / 1024 /\
          pagesize_kbyte g' = to_int (Z.quot pagesize 1024))
    /\ (total_old g' = total_old g /\ cpu_user_old g' = cpu_user_old g /\
        cpu_syst_old g' = cpu_syst_old g)
    /\ (total_mem_kbyte si' = total_mem_kbyte systeminfo /\
        swap_kbyte_max si' = swap_kbyte_max systeminfo /\
        total_swap_kbyte si' = total_swap_kbyte systeminfo /\
        total_cpu_user_percent si' = total_cpu_user_percent systeminfo /\
        total_cpu_syst_percent si' = total_cpu_syst_percent systeminfo).
Proof.
  intros g systeminfo [clock ncpu memsize pagesize s].
  unfold Sip.init_process_info_sysdep;
    cbn [Sip.kern_clockrate Sip.hw_ncpu Sip.hw_memsize Sip.hw_pagesize Sip.sip].
  destruct clock as [c|]; [destruct ncpu as [n|]; [destruct memsize as [m|];
    [destruct pagesize as [p|] |] |] |].
  - pose proof (probe_frame
                  (Sip.set_pagesize_kbyte (Sip.set_hz g c) (to_int (Z.quot p 1024))) s) as Hf.
    destruct (Sip._isSipEnabled
                (Sip.set_pagesize_kbyte (Sip.set_hz g c) (to_int (Z.quot p 1024))) s)
      as [enabled g3].
    cbn [snd] in Hf. destruct Hf as (F1 & F2 & F3 & F4 & F5). cbn in F1, F2, F3, F4, F5.
    cbn. repeat split; try discriminate; try assumption; try congruence.
    all: intros; congruence.
  - cbn. repeat split; try discriminate; try congruence; intros; try tauto.
    all: try (now destruct H as (_ & _ & _ & H)).
  - cbn. repeat split; try discriminate; try congruence; intros; try tauto.
    all: try (now destruct H as (_ & _ & H & _)).
  - cbn. repeat split; try discriminate; try congruence; intros; try tauto.
    all: try (now destruct H as (_ & H & _)).
  - cbn. repeat split; try discriminate; try congruence; intros; try tauto.
    all: try (now destruct H as (H & _)).
Qed.

(** X12: the ranges that the percentage computation relies on are an
    invariant of the sampler: starting from accumulators within the range
    of 32-bit tick counters, any sequence of calls, failed or successful
    with 32-bit counters, leaves them within that range. *)
Theorem cpu_run_keeps_accumulators_in_range :
  forall rs g si,
    accumulators_ok g ->
    Forall (fun r => kern_ok (Cpu.kret r) = true -> Cpu.ticks_ok (Cpu.cpu_info r)) rs ->
    accumulators_ok (fst (cpu_run (g, si) rs)).
Proof.
  induction rs as [|r rs IH]; intros g si Hg Hall; [exact Hg |].
  inversion_clear Hall as [|? ? Hr Hrs].
  change (cpu_run (g, si) (r :: rs)) with (cpu_run (cpu_step (g, si) r) rs).
  destruct (kern_ok (Cpu.kret r)) eqn:Ek.
  - specialize (Hr eq_refl).
    pose proof (ticks_ok_accumulators g (Cpu.cpu_info r) si Hr) as Hacc.
    destruct r as [k ci]. cbn [Cpu.kret Cpu.cpu_info] in *.
    destruct k; [| discriminate Ek].
    unfold cpu_step. cbn [fst snd].
    destruct (Cpu.used_system_cpu_sysdep g (Cpu.mkCpuReply KERN_SUCCESS ci) si)
      as [[ok g'] si'].
    cbn [fst snd] in Hacc. now apply IH.
  - rewrite (cpu_step_failure g si r Ek). now apply IH.
Qed.

Lemma cpu_run_keeps_accumulators_in_range_witness :
  accumulators_ok
    (fst (cpu_run (statics_booted, si_zero)
            [Cpu.mkCpuReply KERN_SUCCESS [100; 50; 800; 0];
             Cpu.mkCpuReply (KERN_FAILURE 5) [];
             Cpu.mkCpuReply KERN_SUCCESS [350; 150; 1450; 0]])).
Proof.
  apply cpu_run_keeps_accumulators_in_range.
  - repeat split; vm_compute; (discriminate || reflexivity).
  - repeat constructor; try (vm_compute; discriminate).
    all: intros H; discriminate H.
Defined.

Lemma snapshot_cmdlines_nonempty_witness :
  exists pts,
    Tree.initprocesstree_sysdep statics_booted
      (Tree.mkSnapshotEnv true (Some [ls_process; own_process]) (Some 64%nat))
    = Ok (2, Some pts)
    /\ Forall (fun pt => exists s, Tree.cmdline pt = Some s /\ s <> []) pts.
Proof.
  eexists. split; [vm_compute; reflexivity |].
  apply (snapshot_cmdlines_nonempty statics_booted
           (Tree.mkSnapshotEnv true (Some [ls_process; own_process]) (Some 64%nat))
           2 _ [ls_process; own_process] eq_refl eq_refl).
  repeat constructor; discriminate.
Defined.
